(** * lxmonika: the process handler registry and the Monix loader

    A shallow embedding of [lxmonika/ProcessMap.cpp] (the kernel-side
    registry that records which provider owns a process) and of
    [mxss/monix/src/loader.cpp] (the user-side bootstrap program), with the
    properties of both that the design document lists. *)

From Stdlib Require Import ZArith NArith Lia List Bool Ascii String Sorted.
From Stdlib Require DecimalString.
From stdpp Require Import base list.

Local Open Scope Z_scope.

(** ** Platform definitions used by the registry *)

Module Nt.

(** [LONG] is a signed and [DWORD] an unsigned 32-bit integer. *)
Definition LONG_cast (z : Z) : Z := (z + 2 ^ 31) mod 2 ^ 32 - 2 ^ 31.
Definition DWORD_cast (z : Z) : Z := z mod 2 ^ 32.

Definition DWORD := Z.
Definition NTSTATUS := Z.

(** Status codes of ntstatus.h, as the signed values an [NTSTATUS] holds. *)
Definition STATUS_SUCCESS : NTSTATUS := 0.
Definition STATUS_NOT_IMPLEMENTED : NTSTATUS := LONG_cast 0xC0000002.
Definition STATUS_INVALID_PARAMETER : NTSTATUS := LONG_cast 0xC000000D.
Definition STATUS_INSUFFICIENT_RESOURCES : NTSTATUS := LONG_cast 0xC000009A.
Definition STATUS_NOT_FOUND : NTSTATUS := LONG_cast 0xC0000225.
Definition STATUS_ALREADY_REGISTERED : NTSTATUS := LONG_cast 0xC0000718.

(** [#define NT_SUCCESS(Status) (((NTSTATUS)(Status)) >= 0)] *)
Definition NT_SUCCESS (Status : NTSTATUS) : bool := 0 <=? LONG_cast Status.

(** A process object is only ever used as a key: its address. *)
Definition PEPROCESS := N.

Inductive RTL_GENERIC_COMPARE_RESULTS :=
| GenericLessThan
| GenericGreaterThan
| GenericEqual.

(** A fast mutex, reduced to the two fields that tell whether it is held. *)
Record FAST_MUTEX := {
  Count : Z;
  Owner : option N
}.

Definition FM_LOCK_BIT : Z := 1.

Definition ExInitializeFastMutex : FAST_MUTEX :=
  {| Count := FM_LOCK_BIT; Owner := None |}.

(** The kernel routines the registry can call. *)
Inductive KCALL :=
| KRtlInitializeGenericTableAvl
| KRtlEnumerateGenericTableAvl
| KRtlDeleteElementGenericTableAvl
| KRtlInsertElementGenericTableAvl
| KRtlLookupElementGenericTableAvl
| KExAllocatePoolZero
| KExFreePoolWithTag
| KExInitializeFastMutex
| KExAcquireFastMutex
| KExReleaseFastMutex.

Definition KCALL_eqb (a b : KCALL) : bool :=
  match a, b with
  | KRtlInitializeGenericTableAvl, KRtlInitializeGenericTableAvl
  | KRtlEnumerateGenericTableAvl, KRtlEnumerateGenericTableAvl
  | KRtlDeleteElementGenericTableAvl, KRtlDeleteElementGenericTableAvl
  | KRtlInsertElementGenericTableAvl, KRtlInsertElementGenericTableAvl
  | KRtlLookupElementGenericTableAvl, KRtlLookupElementGenericTableAvl
  | KExAllocatePoolZero, KExAllocatePoolZero
  | KExFreePoolWithTag, KExFreePoolWithTag
  | KExInitializeFastMutex, KExInitializeFastMutex
  | KExAcquireFastMutex, KExAcquireFastMutex
  | KExReleaseFastMutex, KExReleaseFastMutex => true
  | _, _ => false
  end.

(** *** The generic AVL table

    The table is an external primitive.  It is modelled by its contents in
    the order of the comparison routine: balancing does not change what a
    lookup, an insertion or a deletion returns.  An element pointer is the
    position of the element in that order; the code never keeps one across
    an insertion or a deletion. *)
Section GenericTableAvl.
Context {E : Type}.
Variable CompareRoutine : E -> E -> RTL_GENERIC_COMPARE_RESULTS.

(** The descent compares the caller's buffer (first) with an element of
    the table (second) and stops at an equal element, or where the buffer
    would have to be. *)
Fixpoint RtlLookupElementGenericTableAvl (Table : list E) (Buffer : E)
  : option nat :=
  match Table with
  | [] => None
  | e :: rest =>
      match CompareRoutine Buffer e with
      | GenericEqual => Some 0%nat
      | GenericLessThan => None
      | GenericGreaterThan =>
          S <$> RtlLookupElementGenericTableAvl rest Buffer
      end
  end.

(** Returns the new contents, the pointer to the element equal to the
    buffer (NULL when the allocation routine returned NULL) and
    [NewElement].  [allocated] is what the allocation routine answers if
    it is called. *)
Fixpoint RtlInsertElementGenericTableAvl (allocated : bool)
    (Table : list E) (Buffer : E) : list E * option nat * bool :=
  match Table with
  | [] =>
      if allocated then ([Buffer], Some 0%nat, true) else ([], None, false)
  | e :: rest =>
      match CompareRoutine Buffer e with
      | GenericEqual => (Table, Some 0%nat, false)
      | GenericLessThan =>
          if allocated then (Buffer :: Table, Some 0%nat, true)
          else (Table, None, false)
      | GenericGreaterThan =>
          let '(rest', p, NewElement) :=
            RtlInsertElementGenericTableAvl allocated rest Buffer in
          (e :: rest', S <$> p, NewElement)
      end
  end.

(** Returns the new contents and whether an element was found and
    deleted. *)
Fixpoint RtlDeleteElementGenericTableAvl (Table : list E) (Buffer : E)
  : list E * bool :=
  match Table with
  | [] => ([], false)
  | e :: rest =>
      match CompareRoutine Buffer e with
      | GenericEqual => (rest, true)
      | GenericLessThan => (Table, false)
      | GenericGreaterThan =>
          let '(rest', found) :=
            RtlDeleteElementGenericTableAvl rest Buffer in
          (e :: rest', found)
      end
  end.

(** Enumeration with [Restart = TRUE]: the first element, or NULL. *)
Definition RtlEnumerateGenericTableAvl (Table : list E) : option nat :=
  match Table with
  | [] => None
  | _ :: _ => Some 0%nat
  end.
End GenericTableAvl.

End Nt.

(** ** The registry: lxmonika/ProcessMap.cpp *)

Module ProcessMap.
Import Nt.

(** The two structures come from the class header; their members are the
    ones ProcessMap.cpp reads and writes. *)
Record PROCESS_HANDLER_INFORMATION := {
  Handler : DWORD;
  HasParentHandler : bool;
  HasInternalParentHandler : bool;
  ParentHandler : DWORD
}.

Record _NODE := {
  Key : PEPROCESS;
  Value : PROCESS_HANDLER_INFORMATION
}.

(** The state of a [ProcessMap] object. *)
Record ProcessMap := {
  m_table : list _NODE;
  m_mutex : FAST_MUTEX
}.

(** What [memset(&node, 0, sizeof(node))] and the empty initialiser leave
    in the members that are not assigned. *)
Definition zeroed : PROCESS_HANDLER_INFORMATION :=
  {| Handler := 0; HasParentHandler := false;
     HasInternalParentHandler := false; ParentHandler := 0 |}.

(** *** Computations on the object

    A method takes the object to a result, the object afterwards and the
    kernel routines it called, in order.  [None] is a fault: a failed
    [ASSERT] or an access through a pointer that addresses no element. *)
Definition M (A : Type) : Type :=
  ProcessMap -> option (A * ProcessMap * list KCALL).

Definition ret {A} (a : A) : M A := fun pm => Some (a, pm, []).

Definition bind {A B} (m : M A) (f : A -> M B) : M B := fun pm =>
  match m pm with
  | None => None
  | Some (a, pm', l) =>
      match f a pm' with
      | None => None
      | Some (b, pm'', l') => Some (b, pm'', l ++ l')
      end
  end.

Definition fault {A} : M A := fun _ => None.

Notation "x <- m ;; f" := (bind m (fun x => f))
  (at level 100, m at next level, right associativity, only parsing).
Notation "m ;;; f" := (bind m (fun _ => f))
  (at level 100, right associativity, only parsing).

Definition ASSERT (b : bool) : M unit := if b then ret tt else fault.

Definition not_NULL {A} (p : option A) : bool :=
  match p with
  | Some _ => true
  | None => false
  end.

Definition kernel (c : KCALL) : M unit := fun pm => Some (tt, pm, [c]).
Definition get_table : M (list _NODE) := fun pm => Some (m_table pm, pm, []).
Definition with_table (pm : ProcessMap) (t : list _NODE) : ProcessMap :=
  {| m_table := t; m_mutex := m_mutex pm |}.
Definition set_table (t : list _NODE) : M unit := fun pm =>
  Some (tt, with_table pm t, []).
Definition set_mutex (m : FAST_MUTEX) : M unit := fun pm =>
  Some (tt, {| m_table := m_table pm; m_mutex := m |}, []).

(** Reading and writing the [Value] of the element a pointer addresses. *)
Definition load (p : nat) : M PROCESS_HANDLER_INFORMATION :=
  t <- get_table ;;
  match t !! p with
  | Some node => ret (Value node)
  | None => fault
  end.

Definition store (p : nat) (v : PROCESS_HANDLER_INFORMATION) : M unit :=
  t <- get_table ;;
  match t !! p with
  | Some node => set_table (<[p := {| Key := Key node; Value := v |}]> t)
  | None => fault
  end.

(** The result, the object and the calls of a computation. *)
Definition exec {A} (m : M A) (pm : ProcessMap) : option (A * ProcessMap) :=
  fst <$> m pm.
Definition calls {A} (m : M A) (pm : ProcessMap) : option (list KCALL) :=
  snd <$> m pm.

(** *** The callbacks given to the table *)

Definition _CompareRoutine (FirstStruct SecondStruct : _NODE)
  : RTL_GENERIC_COMPARE_RESULTS :=
  if (Key FirstStruct =? Key SecondStruct)%N then GenericEqual
  else if (Key SecondStruct <? Key FirstStruct)%N then GenericGreaterThan
  else GenericLessThan.

(** [ExAllocatePoolZero(PagedPool, ByteSize, 'PMAP')]: [pool] tells whether
    the pool can serve the request. *)
Definition _AllocateRoutine (pool : bool) : M bool :=
  kernel KExAllocatePoolZero ;;; ret pool.

Definition _FreeRoutine : M unit := kernel KExFreePoolWithTag.

(** *** The table routines, run on [m_table] with those callbacks *)

Definition Lookup (Buffer : _NODE) : M (option nat) :=
  kernel KRtlLookupElementGenericTableAvl ;;;
  t <- get_table ;;
  ret (RtlLookupElementGenericTableAvl _CompareRoutine t Buffer).

Definition Insert (pool : bool) (Buffer : _NODE) : M (option nat * bool) :=
  kernel KRtlInsertElementGenericTableAvl ;;;
  t <- get_table ;;
  match RtlLookupElementGenericTableAvl _CompareRoutine t Buffer with
  | Some p => ret (Some p, false)
  | None =>
      allocated <- _AllocateRoutine pool ;;
      let '(t', p, NewElement) :=
        RtlInsertElementGenericTableAvl _CompareRoutine allocated t Buffer in
      set_table t' ;;; ret (p, NewElement)
  end.

Definition Delete (Buffer : _NODE) : M bool :=
  kernel KRtlDeleteElementGenericTableAvl ;;;
  t <- get_table ;;
  let '(t', found) :=
    RtlDeleteElementGenericTableAvl _CompareRoutine t Buffer in
  if found then _FreeRoutine ;;; set_table t' ;;; ret true
  else ret false.

Definition Enumerate : M (option nat) :=
  kernel KRtlEnumerateGenericTableAvl ;;;
  t <- get_table ;;
  ret (RtlEnumerateGenericTableAvl t).

(** *** The methods *)

Definition Initialize : M unit :=
  kernel KRtlInitializeGenericTableAvl ;;;
  set_table [] ;;;
  kernel KExInitializeFastMutex ;;;
  set_mutex ExInitializeFastMutex.

(** One turn of the loop of [Clear] per unit of [fuel]; a loop cut short
    for want of fuel counts as a fault. *)
Fixpoint Clear_loop (fuel : nat) : M unit :=
  match fuel with
  | O => fault
  | S fuel' =>
      pCurrentElement <- Enumerate ;;
      match pCurrentElement with
      | None => ret tt
      | Some p =>
          t <- get_table ;;
          match t !! p with
          | Some Buffer => Delete Buffer ;;; Clear_loop fuel'
          | None => fault
          end
      end
  end.

(** The loop deletes an element per turn, so one turn more than there are
    elements is enough (theorem [Clear_empties] below). *)
Definition Clear : M unit :=
  t <- get_table ;;
  Clear_loop (S (length t)).

Definition operator_index (key : PEPROCESS) : M (option nat) :=
  let node := {| Key := key; Value := zeroed |} in
  pBuffer <- Lookup node ;;
  match pBuffer with
  | None => ret None
  | Some p => ret (Some p)
  end.

Definition ProcessBelongsToHandler (process : PEPROCESS) (handler : DWORD)
  : M bool :=
  pInfo <- operator_index process ;;
  match pInfo with
  | None => ret false
  | Some p => info <- load p ;; ret (Handler info =? handler)
  end.

(** An output argument is [None] for a NULL pointer and otherwise holds
    what the pointer addresses; the method returns it as it leaves it. *)
Definition GetProcessHandler (process : PEPROCESS) (handler : option DWORD)
  : M (NTSTATUS * option DWORD) :=
  match handler with
  | None => ret (STATUS_INVALID_PARAMETER, None)
  | Some _ =>
      pInfo <- operator_index process ;;
      match pInfo with
      | None => ret (STATUS_NOT_FOUND, handler)
      | Some p =>
          info <- load p ;;
          ret (STATUS_SUCCESS, Some (Handler info))
      end
  end.

Definition GetProcessHandlerInformation (process : PEPROCESS)
    (handlerInformation : option PROCESS_HANDLER_INFORMATION)
  : M (NTSTATUS * option PROCESS_HANDLER_INFORMATION) :=
  match handlerInformation with
  | None => ret (STATUS_INVALID_PARAMETER, None)
  | Some _ =>
      pInfo <- operator_index process ;;
      match pInfo with
      | None => ret (STATUS_NOT_FOUND, handlerInformation)
      | Some p =>
          info <- load p ;;
          ret (STATUS_SUCCESS, Some info)
      end
  end.

Definition with_Handler (handler : DWORD) (v : PROCESS_HANDLER_INFORMATION)
  : PROCESS_HANDLER_INFORMATION :=
  {| Handler := handler; HasParentHandler := HasParentHandler v;
     HasInternalParentHandler := HasInternalParentHandler v;
     ParentHandler := ParentHandler v |}.

Definition RegisterProcessHandler (pool : bool) (process : PEPROCESS)
    (handler : DWORD) : M NTSTATUS :=
  let node := {| Key := process; Value := with_Handler handler zeroed |} in
  r <- Insert pool node ;;
  let '(pInsertedNode, bNewEntry) := r in
  match pInsertedNode with
  | None => ret STATUS_INSUFFICIENT_RESOURCES
  | Some p =>
      if negb bNewEntry then ret STATUS_ALREADY_REGISTERED
      else
        inserted <- load p ;;
        ASSERT (Handler inserted =? handler) ;;;
        ret STATUS_SUCCESS
  end.

(** Lines 140 to 150 of [SwitchProcessHandler], which both branches of the
    lookup reach with [pInfo] and [bHasInternalProvider] set. *)
Definition SwitchProcessHandler_handoff (pInfo : nat)
    (bHasInternalProvider : bool) (newHandler : DWORD) : M NTSTATUS :=
  info <- load pInfo ;;
  if HasParentHandler info then ret STATUS_NOT_IMPLEMENTED
  else
    store pInfo {| Handler := newHandler;
                   HasParentHandler := true;
                   HasInternalParentHandler := bHasInternalProvider;
                   ParentHandler := Handler info |} ;;;
    ret STATUS_SUCCESS.

Definition SwitchProcessHandler (pool : bool) (process : PEPROCESS)
    (newHandler : DWORD) : M NTSTATUS :=
  pInfo <- operator_index process ;;
  match pInfo with
  | Some p => SwitchProcessHandler_handoff p true newHandler
  | None =>
      status <- RegisterProcessHandler pool process (DWORD_cast (-1)) ;;
      if negb (NT_SUCCESS status) then ret status
      else
        pInfo' <- operator_index process ;;
        ASSERT (not_NULL pInfo') ;;;
        match pInfo' with
        | Some p => SwitchProcessHandler_handoff p false newHandler
        | None => fault
        end
  end.

(** Only [Key] of the local node is set; the comparison routine reads
    nothing else, so the other members are given as zero. *)
Definition UnregisterProcess (process : PEPROCESS) : M NTSTATUS :=
  let node := {| Key := process; Value := zeroed |} in
  found <- Delete node ;;
  if negb found then ret STATUS_NOT_FOUND else ret STATUS_SUCCESS.

(** *** Views used to state the properties *)

(** The entry of a process: what the pointer returned by [operator_index]
    addresses. *)
Definition find (t : list _NODE) (process : PEPROCESS) : option nat :=
  RtlLookupElementGenericTableAvl _CompareRoutine t
    {| Key := process; Value := zeroed |}.

Definition entry (pm : ProcessMap) (process : PEPROCESS)
  : option PROCESS_HANDLER_INFORMATION :=
  p ← find (m_table pm) process; Value <$> m_table pm !! p.

(** The number of elements of the table whose key is [process]. *)
Definition entries_for (process : PEPROCESS) (pm : ProcessMap) : nat :=
  length (filter (fun node => Key node = process) (m_table pm)).

(** The elements are in strictly increasing order of their keys. *)
Definition ordered (t : list _NODE) : Prop :=
  StronglySorted N.lt (Key <$> t).

(** The entry a handoff leaves. *)
Definition delegated (newHandler : DWORD) (internal : bool) (parent : DWORD)
  : PROCESS_HANDLER_INFORMATION :=
  {| Handler := newHandler; HasParentHandler := true;
     HasInternalParentHandler := internal; ParentHandler := parent |}.

(** *** Operations as data *)

Inductive Operation :=
| OpLookup (process : PEPROCESS)
| OpProcessBelongsToHandler (process : PEPROCESS) (handler : DWORD)
| OpGetProcessHandler (process : PEPROCESS) (handler : option DWORD)
| OpGetProcessHandlerInformation (process : PEPROCESS)
    (handlerInformation : option PROCESS_HANDLER_INFORMATION)
| OpRegisterProcessHandler (pool : bool) (process : PEPROCESS)
    (handler : DWORD)
| OpSwitchProcessHandler (pool : bool) (process : PEPROCESS)
    (newHandler : DWORD)
| OpUnregisterProcess (process : PEPROCESS)
| OpClear.

Definition perform (op : Operation) : M unit :=
  match op with
  | OpLookup process => operator_index process ;;; ret tt
  | OpProcessBelongsToHandler process handler =>
      ProcessBelongsToHandler process handler ;;; ret tt
  | OpGetProcessHandler process handler =>
      GetProcessHandler process handler ;;; ret tt
  | OpGetProcessHandlerInformation process handlerInformation =>
      GetProcessHandlerInformation process handlerInformation ;;; ret tt
  | OpRegisterProcessHandler pool process handler =>
      RegisterProcessHandler pool process handler ;;; ret tt
  | OpSwitchProcessHandler pool process newHandler =>
      SwitchProcessHandler pool process newHandler ;;; ret tt
  | OpUnregisterProcess process => UnregisterProcess process ;;; ret tt
  | OpClear => Clear
  end.

Fixpoint perform_all (ops : list Operation) : M unit :=
  match ops with
  | [] => ret tt
  | op :: ops' => perform op ;;; perform_all ops'
  end.

(** The states of the object that the code can produce: any sequence of
    operations after [Initialize]. *)
Definition reachable (pm : ProcessMap) : Prop :=
  exists pm0 ops, exec (Initialize ;;; perform_all ops) pm0 = Some (tt, pm).

(** The operations the design document calls public: all but [Clear]. *)
Definition public (op : Operation) : bool :=
  match op with
  | OpClear => false
  | _ => true
  end.

(** *** Use of the lock in a sequence of kernel calls *)

Definition touches_mutex (c : KCALL) : bool :=
  KCALL_eqb c KExAcquireFastMutex || KCALL_eqb c KExReleaseFastMutex.

(** No call acquires or releases the mutex. *)
Definition leaves_mutex_alone (l : list KCALL) : bool :=
  forallb (fun c => negb (touches_mutex c)) l.

(** The mutex is acquired first, released last, and held in between. *)
Definition holds_mutex_throughout (l : list KCALL) : bool :=
  match l with
  | KExAcquireFastMutex :: l' =>
      match rev l' with
      | KExReleaseFastMutex :: body => leaves_mutex_alone body
      | _ => false
      end
  | _ => false
  end.

(** What every operation keeps: the state of the mutex, which it neither
    acquires nor releases, and the order of the table. *)
Definition preserved (pm pm' : ProcessMap) (l : list KCALL) : Prop :=
  m_mutex pm' = m_mutex pm /\
  leaves_mutex_alone l = true /\
  (ordered (m_table pm) -> ordered (m_table pm')).

(** *** Sample states

    A registry with one process, already handed off from handler 1 to
    handler 2; one with the process registered under handler 1; and the
    registry [Initialize] leaves. *)
Definition delegated_map : ProcessMap :=
  {| m_table := [{| Key := 4096%N; Value := delegated 2 true 1 |}];
     m_mutex := ExInitializeFastMutex |}.

Definition registered_map : ProcessMap :=
  {| m_table := [{| Key := 4096%N; Value := with_Handler 1 zeroed |}];
     m_mutex := ExInitializeFastMutex |}.

Definition empty_map : ProcessMap :=
  {| m_table := []; m_mutex := ExInitializeFastMutex |}.

(** *** Further views *)

(** The element the lookup of a key addresses. *)
Definition element (t : list _NODE) (process : PEPROCESS) : option _NODE :=
  p ← find t process; t !! p.

(** The process an operation is about; [Clear] is about all of them. *)
Definition process_of (op : Operation) : option PEPROCESS :=
  match op with
  | OpLookup process
  | OpProcessBelongsToHandler process _
  | OpGetProcessHandler process _
  | OpGetProcessHandlerInformation process _
  | OpRegisterProcessHandler _ process _
  | OpSwitchProcessHandler _ process _
  | OpUnregisterProcess process => Some process
  | OpClear => None
  end.

(** A registry with two processes, registered under handlers 1 and 5. *)
Definition two_process_map : ProcessMap :=
  {| m_table := [{| Key := 4096%N; Value := with_Handler 1 zeroed |};
                 {| Key := 8192%N; Value := with_Handler 5 zeroed |}];
     m_mutex := ExInitializeFastMutex |}.

(** How often a kernel routine occurs in a sequence of calls. *)
Definition calls_to (c : KCALL) (l : list KCALL) : nat :=
  length (List.filter (KCALL_eqb c) l).

End ProcessMap.

(** ** The loader: mxss/monix/src/loader.cpp *)

Module Loader.

(** [int] is a signed 32-bit integer; [char] is a byte. *)
Definition int_cast (z : Z) : Z := (z + 2 ^ 31) mod 2 ^ 32 - 2 ^ 31.
Definition char_cast (z : Z) : ascii := ascii_of_N (Z.to_N (z mod 256)).
Definition char_value (c : ascii) : Z := Z.of_N (N_of_ascii c).

Definition NUL : ascii := "000"%char.
Definition LF : string := String "010"%char EmptyString.

(** The characters of a string literal, and [sizeof] of the literal. *)
Definition lit (s : string) : list ascii := list_ascii_of_string s.
Definition sizeof (s : string) : Z := Z.of_nat (String.length s) + 1.

(** The number given to a system call.  The [SYS_] names are those of
    <sys/syscall.h>, whose values depend on the architecture; [Monix n] is
    the number [n] of the Monix table. *)
Inductive number :=
| SYS_write
| SYS_exit
| SYS_mknod
| SYS_open
| SYS_chroot
| SYS_chdir
| SYS_ioctl
| Monix (n : Z).

Definition SYSCALL_EXIT : number := Monix 0.
Definition SYSCALL_READ : number := Monix 1.
Definition SYSCALL_WRITE : number := Monix 2.

(** An argument is a number, or a pointer, given with the bytes it
    addresses. *)
Inductive arg :=
| Int (z : Z)
| Ptr (bytes : list ascii).

(** A program as the system calls it makes through [LinuxSyscall]: each
    call names what is done with the value the kernel returns in the
    result register.  [Undefined] stands for undefined behaviour:
    [__builtin_unreachable()] reached, or a write past an array. *)
Inductive Program :=
| LinuxSyscall (n : number) (args : list arg) (k : Z -> Program)
| Undefined
| Return.

(** The constants of <errno.h>, <fcntl.h>, <sys/stat.h> on Linux. *)
Definition EEXIST : Z := 17.
Definition O_RDONLY : Z := 0.
Definition S_IFMT : Z := 0xF000.
Definition S_IFCHR : Z := 0x2000.
Definition S_IRUSR : Z := 0x100.
Definition S_IWUSR : Z := 0x80.
Definition S_IXUSR : Z := 0x40.
Definition S_IRGRP : Z := 0x20.
Definition S_IWGRP : Z := 0x10.
Definition S_IXGRP : Z := 0x8.
Definition S_IROTH : Z := 0x4.
Definition S_IWOTH : Z := 0x2.
Definition S_IXOTH : Z := 0x1.

(** [makedev] of <sys/sysmacros.h>. *)
Definition makedev (major minor : Z) : Z :=
  Z.lor (Z.lor (Z.shiftl (Z.land major 0x00000fff) 8)
               (Z.shiftl (Z.land major 0xfffff000) 32))
        (Z.lor (Z.land minor 0x000000ff)
               (Z.shiftl (Z.land minor 0xffffff00) 12)).

(** The loop of [LinuxFail].  [room] counts the elements of
    [statusString] from [length] on: with none left the store would be past
    the array. *)
Fixpoint LinuxFail_loop (room : nat) (statusString : list ascii)
    (length : nat) (status : Z) : option (list ascii * nat * Z) :=
  match room with
  | O => None
  | S room' =>
      let statusString :=
        <[length := char_cast (Z.rem status 10 + char_value "0")]>
          statusString in
      let status := Z.quot status 10 in
      let length := S length in
      if status =? 0 then Some (statusString, length, status)
      else LinuxFail_loop room' statusString length status
  end.

(** [status = -status] is taken in 32-bit two's complement.  It is the
    exact negation for every [int] but the least one, whose negation
    overflows: the language leaves that case undefined, and the value
    given to it here is the one the wrapping gives. *)
Definition LinuxFail (message : list ascii) (messageSize : Z) (status : Z)
  : Program :=
  let statusString := lit ": " ++ replicate 30 NUL in
  let length := 2%nat in
  let status := int_cast (- status) in
  match LinuxFail_loop 30 statusString length status with
  | None => Undefined
  | Some (statusString, length, status) =>
      if (length <? 32)%nat then
        let statusString := <[length := "010"%char]> statusString in
        let length := S length in
        LinuxSyscall SYS_write [Int 2; Ptr message; Int messageSize]
          (fun _ =>
        LinuxSyscall SYS_write
          [Int 2; Ptr statusString; Int (Z.of_nat length)] (fun _ =>
        LinuxSyscall SYS_exit [Int status] (fun _ =>
        Undefined)))
      else Undefined
  end.

Abbreviation MonixSyscall := LinuxSyscall (only parsing).

Section Start.
(** The constants of monika_constants.h. *)
Variable MA_NAME_MAX : nat.
Variable MA_REALITY_MINOR : Z.
Variable MA_IOCTL_SET_PROVIDER : Z.

Definition ProviderName : list ascii :=
  take MA_NAME_MAX (lit "Monix" ++ replicate (MA_NAME_MAX - 5) NUL).

Definition _start : Program :=
  let m0 := ("Bootstrapping the container with Monix loader..." ++ LF)%string
  in
  LinuxSyscall SYS_write [Int 1; Ptr (lit m0); Int (sizeof m0 - 1)]
    (fun r =>
  let status := int_cast r in
  if status <? 0 then
    let m := "Cannot write Hello World"%string in
    LinuxFail (lit m) (sizeof m - 1) status
  else
  LinuxSyscall SYS_mknod
    [Ptr (lit "/dev/reality");
     Int (Z.lor S_IFCHR (Z.lor (Z.lor S_IRUSR S_IRGRP) S_IROTH));
     Int (makedev 10 MA_REALITY_MINOR)] (fun r =>
  let status := int_cast r in
  if (status <? 0) && negb (status =? - EEXIST) then
    let m := "Cannot create the reality device"%string in
    LinuxFail (lit m) (sizeof m - 1) status
  else
  LinuxSyscall SYS_open [Ptr (lit "/dev/reality"); Int O_RDONLY] (fun r =>
  let status := int_cast r in
  if status <? 0 then
    let m := "Cannot open the reality device"%string in
    LinuxFail (lit m) (sizeof m - 1) status
  else
  let fd := status in
  LinuxSyscall SYS_chroot [Ptr (lit "/rootfs/")] (fun r =>
  let status := int_cast r in
  if status <? 0 then
    let m := "Cannot change root"%string in
    LinuxFail (lit m) (sizeof m - 1) status
  else
  LinuxSyscall SYS_chdir [Ptr (lit "/")] (fun r =>
  let status := int_cast r in
  if status <? 0 then
    let m := "Cannot change directory"%string in
    LinuxFail (lit m) (sizeof m - 1) status
  else
  LinuxSyscall SYS_ioctl
    [Int fd; Int MA_IOCTL_SET_PROVIDER; Ptr ProviderName] (fun r =>
  let status := int_cast r in
  if status <? 0 then
    let m := "Cannot set the provider name"%string in
    LinuxFail (lit m) (sizeof m - 1) status
  else
  let m1 := ("Hello, Monix World!" ++ LF)%string in
  MonixSyscall SYSCALL_WRITE [Int 1; Ptr (lit m1); Int (sizeof m1 - 1)]
    (fun _ =>
  MonixSyscall SYSCALL_EXIT [Int (-1)] (fun _ =>
  let m2 := ("Monix container exited." ++ LF)%string in
  LinuxSyscall SYS_write [Int 1; Ptr (lit m2); Int (sizeof m2 - 1)]
    (fun _ =>
  LinuxSyscall SYS_exit [Int 0] (fun _ =>
  Return)))))))))).
End Start.

(** *** Running a program against the kernel

    [answers] are the values the kernel returns, one per call that
    returns.  [SYS_exit] does not return. *)
Inductive Ending :=
| Exited (status : option Z)
| Waiting
| Returned
| UndefinedBehaviour.

Definition request : Type := number * list arg.

Definition is_exit (n : number) : bool :=
  match n with
  | SYS_exit => true
  | _ => false
  end.

Fixpoint run (p : Program) (answers : list Z) : list request * Ending :=
  match p with
  | LinuxSyscall n args k =>
      if is_exit n then
        ([(n, args)],
         Exited (match args with Int s :: _ => Some s | _ => None end))
      else
        match answers with
        | [] => ([(n, args)], Waiting)
        | r :: answers' =>
            let '(l, e) := run (k r) answers' in ((n, args) :: l, e)
        end
  | Undefined => ([], UndefinedBehaviour)
  | Return => ([], Returned)
  end.

(** What a [write] request puts on which descriptor: the first [count]
    bytes of the buffer. *)
Definition written (q : request) : option (Z * string) :=
  match q with
  | (SYS_write, [Int fd; Ptr buf; Int count]) =>
      Some (fd, string_of_list_ascii (take (Z.to_nat count) buf))
  | _ => None
  end.

(** The decimal numeral of a natural number, most significant digit
    first. *)
Definition decimal (n : N) : string :=
  DecimalString.NilZero.string_of_uint (N.to_uint n).

(** *** Further views *)

(** The number a sequence of digit characters denotes when the first one
    is the least significant. *)
Fixpoint little_endian (digits : list ascii) : Z :=
  match digits with
  | [] => 0
  | d :: digits' =>
      (char_value d - char_value "0") + 10 * little_endian digits'
  end.

Definition is_digit (c : ascii) : Prop :=
  char_value "0" <= char_value c <= char_value "9".

(** The six steps [_start] takes under Linux, in order, the test it
    applies to the value each returns, and the message it gives
    [LinuxFail] when the test fails. *)
Definition step_failed (step : nat) (r : Z) : bool :=
  let status := int_cast r in
  match step with
  | 1%nat => (status <? 0) && negb (status =? - EEXIST)
  | _ => status <? 0
  end.

Definition failure_message (step : nat) : string :=
  match step with
  | 0%nat => "Cannot write Hello World"
  | 1%nat => "Cannot create the reality device"
  | 2%nat => "Cannot open the reality device"
  | 3%nat => "Cannot change root"
  | 4%nat => "Cannot change directory"
  | _ => "Cannot set the provider name"
  end.

End Loader.

(** ** Properties of the registry *)

Module ProcessMapFacts.
Import Nt ProcessMap.

(** *** The comparison routine *)

Lemma CompareRoutine_key (a b : _NODE) :
  _CompareRoutine a b =
    match (Key a ?= Key b)%N with
    | Eq => GenericEqual
    | Lt => GenericLessThan
    | Gt => GenericGreaterThan
    end.
Proof.
  unfold _CompareRoutine.
  destruct (N.compare_spec (Key a) (Key b)) as [He | Hl | Hg].
  - rewrite He, N.eqb_refl. reflexivity.
  - destruct (N.eqb_spec (Key a) (Key b)); [lia |].
    destruct (N.ltb_spec (Key b) (Key a)); [lia | reflexivity].
  - destruct (N.eqb_spec (Key a) (Key b)); [lia |].
    destruct (N.ltb_spec (Key b) (Key a)); [reflexivity | lia].
Qed.

Lemma CompareRoutine_ext (a a' b : _NODE) :
  Key a = Key a' -> _CompareRoutine a b = _CompareRoutine a' b.
Proof. intros H. rewrite !CompareRoutine_key, H. reflexivity. Qed.

Lemma CompareRoutine_refl (a b : _NODE) :
  Key a = Key b -> _CompareRoutine a b = GenericEqual.
Proof. intros H. rewrite CompareRoutine_key, H, N.compare_refl. reflexivity. Qed.

Lemma CompareRoutine_Equal (a b : _NODE) :
  _CompareRoutine a b = GenericEqual -> Key a = Key b.
Proof.
  rewrite CompareRoutine_key.
  destruct (N.compare_spec (Key a) (Key b)); congruence.
Qed.

Lemma CompareRoutine_Less (a b : _NODE) :
  _CompareRoutine a b = GenericLessThan -> (Key a < Key b)%N.
Proof.
  rewrite CompareRoutine_key.
  destruct (N.compare_spec (Key a) (Key b)); congruence.
Qed.

Lemma CompareRoutine_Greater (a b : _NODE) :
  _CompareRoutine a b = GenericGreaterThan -> (Key b < Key a)%N.
Proof.
  rewrite CompareRoutine_key.
  destruct (N.compare_spec (Key a) (Key b)); congruence.
Qed.

(** *** The table routines on the contents *)

Abbreviation lookup_ := (RtlLookupElementGenericTableAvl _CompareRoutine).
Abbreviation insert_ := (RtlInsertElementGenericTableAvl _CompareRoutine).
Abbreviation delete_ := (RtlDeleteElementGenericTableAvl _CompareRoutine).

Lemma lookup_ext (t : list _NODE) (b b' : _NODE) :
  Key b = Key b' -> lookup_ t b = lookup_ t b'.
Proof.
  intros H. induction t as [| e t IH]; simpl; [reflexivity |].
  rewrite (CompareRoutine_ext b b' e H), IH. reflexivity.
Qed.

Lemma delete_ext (t : list _NODE) (b b' : _NODE) :
  Key b = Key b' -> delete_ t b = delete_ t b'.
Proof.
  intros H. induction t as [| e t IH]; simpl; [reflexivity |].
  rewrite (CompareRoutine_ext b b' e H), IH. reflexivity.
Qed.

Lemma lookup_find (t : list _NODE) (b : _NODE) :
  lookup_ t b = find t (Key b).
Proof. apply lookup_ext. reflexivity. Qed.

(** A pointer returned by the lookup addresses an element with the key
    that was looked up. *)
Lemma lookup_Some (t : list _NODE) (b : _NODE) (p : nat) :
  lookup_ t b = Some p -> exists e, t !! p = Some e /\ Key e = Key b.
Proof.
  revert p. induction t as [| e t IH]; simpl; intros p Hp; [discriminate |].
  destruct (_CompareRoutine b e) eqn:Hc; try discriminate.
  - destruct (lookup_ t b) as [q |] eqn:Hq; simpl in Hp; [| discriminate].
    injection Hp as <-. simpl. apply IH. reflexivity.
  - injection Hp as <-. exists e. split; [reflexivity |].
    symmetry. apply CompareRoutine_Equal. assumption.
Qed.

Lemma insert_found (a : bool) (t : list _NODE) (b : _NODE) (p : nat) :
  lookup_ t b = Some p -> insert_ a t b = (t, Some p, false).
Proof.
  revert p. induction t as [| e t IH]; simpl; intros p Hp; [discriminate |].
  destruct (_CompareRoutine b e) eqn:Hc; try discriminate.
  - destruct (lookup_ t b) as [q |] eqn:Hq; simpl in Hp; [| discriminate].
    injection Hp as <-. rewrite (IH q eq_refl). reflexivity.
  - injection Hp as <-. reflexivity.
Qed.

Lemma insert_no_pool (t : list _NODE) (b : _NODE) :
  lookup_ t b = None -> insert_ false t b = (t, None, false).
Proof.
  induction t as [| e t IH]; simpl; intros Hp; [reflexivity |].
  destruct (_CompareRoutine b e) eqn:Hc; try discriminate; [reflexivity |].
  destruct (lookup_ t b) as [q |] eqn:Hq; simpl in Hp; [discriminate |].
  rewrite (IH eq_refl). reflexivity.
Qed.

(** A fresh element is put where the lookup stopped: it is found there by
    a later lookup, and deleting it gives the former contents back. *)
Lemma insert_fresh (t : list _NODE) (b : _NODE) :
  lookup_ t b = None ->
  exists t' p,
    insert_ true t b = (t', Some p, true) /\
    lookup_ t' b = Some p /\
    t' !! p = Some b /\
    delete_ t' b = (t, true) /\
    length t' = S (length t).
Proof.
  induction t as [| e t IH]; simpl; intros Hp.
  - exists [b], 0%nat. simpl.
    rewrite (CompareRoutine_refl b b eq_refl). repeat split.
  - destruct (_CompareRoutine b e) eqn:Hc; try discriminate.
    + exists (b :: e :: t), 0%nat. simpl.
      rewrite (CompareRoutine_refl b b eq_refl). repeat split.
    + destruct (lookup_ t b) as [q |] eqn:Hq; simpl in Hp; [discriminate |].
      destruct (IH eq_refl) as (t' & p & Hi & Hl & Hn & Hd & Hlen).
      exists (e :: t'), (S p). rewrite Hi. simpl.
      rewrite Hc, Hl, Hd, Hlen. repeat split. assumption.
Qed.

Lemma delete_absent (t : list _NODE) (b : _NODE) :
  lookup_ t b = None -> delete_ t b = (t, false).
Proof.
  induction t as [| e t IH]; simpl; intros Hp; [reflexivity |].
  destruct (_CompareRoutine b e) eqn:Hc; try discriminate; [reflexivity |].
  destruct (lookup_ t b) as [q |] eqn:Hq; simpl in Hp; [discriminate |].
  rewrite (IH eq_refl). reflexivity.
Qed.

Lemma delete_found (t : list _NODE) (b : _NODE) (p : nat) :
  lookup_ t b = Some p -> delete_ t b = (delete p t, true).
Proof.
  revert p. induction t as [| e t IH]; simpl; intros p Hp; [discriminate |].
  destruct (_CompareRoutine b e) eqn:Hc; try discriminate.
  - destruct (lookup_ t b) as [q |] eqn:Hq; simpl in Hp; [| discriminate].
    injection Hp as <-. rewrite (IH q eq_refl). reflexivity.
  - injection Hp as <-. reflexivity.
Qed.

(** Writing the [Value] of an element does not move any element. *)
Lemma lookup_store (t : list _NODE) (b : _NODE) (p : nat) (e : _NODE)
    (v : PROCESS_HANDLER_INFORMATION) :
  t !! p = Some e ->
  lookup_ (<[p := {| Key := Key e; Value := v |}]> t) b = lookup_ t b.
Proof.
  revert p. induction t as [| x t IH]; intros p Hp; [reflexivity |].
  destruct p as [| p]; simpl in *.
  - injection Hp as ->.
    rewrite !CompareRoutine_key. simpl. reflexivity.
  - rewrite (IH p Hp). reflexivity.
Qed.

(** *** The order of the elements *)

Lemma insert_Forall (P : _NODE -> Prop) (a : bool) (t : list _NODE)
    (b : _NODE) :
  P b -> Forall P t -> Forall P (insert_ a t b).1.1.
Proof.
  intros Hb. induction t as [| e t IH]; simpl; intros Ht.
  - destruct a; simpl; auto.
  - inversion Ht as [| ? ? He Ht']; subst.
    destruct (_CompareRoutine b e); simpl; auto.
    + destruct a; simpl; auto.
    + specialize (IH Ht').
      destruct (insert_ a t b) as [[t' p] n]. simpl in *. auto.
Qed.

Lemma delete_Forall (P : _NODE -> Prop) (t : list _NODE) (b : _NODE) :
  Forall P t -> Forall P (delete_ t b).1.
Proof.
  induction t as [| e t IH]; simpl; intros Ht; [constructor |].
  inversion Ht as [| ? ? He Ht']; subst.
  destruct (_CompareRoutine b e); simpl; auto.
  specialize (IH Ht'). destruct (delete_ t b) as [t' f]. simpl in *. auto.
Qed.

Lemma ordered_cons (e : _NODE) (t : list _NODE) :
  ordered (e :: t) <->
  ordered t /\ Forall (fun x => (Key e < Key x)%N) t.
Proof.
  unfold ordered. simpl. split.
  - intros H. inversion H as [| ? ? Hs Hf]; subst. split; [assumption |].
    rewrite Forall_fmap in Hf. exact Hf.
  - intros [Hs Hf]. constructor; [assumption |].
    rewrite Forall_fmap. exact Hf.
Qed.

Lemma ordered_nil : ordered [].
Proof. constructor. Qed.

Lemma ordered_insert (a : bool) (t : list _NODE) (b : _NODE) :
  ordered t -> ordered (insert_ a t b).1.1.
Proof.
  induction t as [| e t IH]; simpl; intros Ho.
  - destruct a; simpl; [| exact ordered_nil].
    apply ordered_cons. split; [exact ordered_nil | constructor].
  - destruct (_CompareRoutine b e) eqn:Hc; simpl; auto.
    + apply CompareRoutine_Less in Hc.
      destruct a; simpl; auto.
      apply ordered_cons. split; [assumption |].
      apply ordered_cons in Ho as [_ Hf].
      constructor; [assumption |].
      eapply Forall_impl; [exact Hf |]. simpl. intros x Hx. lia.
    + apply CompareRoutine_Greater in Hc.
      apply ordered_cons in Ho as [Ho Hf].
      specialize (IH Ho).
      pose proof (insert_Forall (fun x => (Key e < Key x)%N) a t b Hc Hf)
        as Hf'.
      destruct (insert_ a t b) as [[t' p] n]. simpl in *.
      apply ordered_cons. split; assumption.
Qed.

Lemma ordered_delete (t : list _NODE) (b : _NODE) :
  ordered t -> ordered (delete_ t b).1.
Proof.
  induction t as [| e t IH]; simpl; intros Ho; [exact ordered_nil |].
  destruct (_CompareRoutine b e) eqn:Hc; simpl; auto.
  - apply ordered_cons in Ho as [Ho Hf].
    specialize (IH Ho).
    pose proof (delete_Forall (fun x => (Key e < Key x)%N) t b Hf) as Hf'.
    destruct (delete_ t b) as [t' f]. simpl in *.
    apply ordered_cons. split; assumption.
  - apply ordered_cons in Ho as [Ho _]. assumption.
Qed.

Lemma keys_store (t : list _NODE) (p : nat) (e : _NODE)
    (v : PROCESS_HANDLER_INFORMATION) :
  t !! p = Some e ->
  Key <$> <[p := {| Key := Key e; Value := v |}]> t = Key <$> t.
Proof.
  intros Hp. rewrite list_fmap_insert. simpl.
  apply list_insert_id. rewrite list_lookup_fmap, Hp. reflexivity.
Qed.

Lemma ordered_store (t : list _NODE) (p : nat) (e : _NODE)
    (v : PROCESS_HANDLER_INFORMATION) :
  t !! p = Some e -> ordered t ->
  ordered (<[p := {| Key := Key e; Value := v |}]> t).
Proof. intros Hp. unfold ordered. rewrite (keys_store t p e v Hp). auto. Qed.

Lemma lookup_above (t : list _NODE) (b : _NODE) :
  Forall (fun x => (Key b < Key x)%N) t -> lookup_ t b = None.
Proof.
  intros Hf. destruct Hf as [| e t He _]; simpl; [reflexivity |].
  rewrite CompareRoutine_key.
  destruct (N.compare_spec (Key b) (Key e)); [lia | reflexivity | lia].
Qed.

(** In an ordered table a deleted key is not found again. *)
Lemma lookup_deleted (t : list _NODE) (b : _NODE) :
  ordered t -> lookup_ (delete_ t b).1 b = None.
Proof.
  induction t as [| e t IH]; simpl; intros Ho; [reflexivity |].
  destruct (_CompareRoutine b e) eqn:Hc; simpl.
  - rewrite Hc. reflexivity.
  - apply ordered_cons in Ho as [Ho _]. specialize (IH Ho).
    destruct (delete_ t b) as [t' f]. simpl in *. rewrite Hc, IH.
    reflexivity.
  - apply ordered_cons in Ho as [_ Hf].
    apply lookup_above. apply CompareRoutine_Equal in Hc. rewrite Hc.
    exact Hf.
Qed.

Lemma filter_above (k : PEPROCESS) (t : list _NODE) :
  Forall (fun x => (k < Key x)%N) t ->
  filter (fun node => Key node = k) t = [].
Proof.
  induction 1 as [| e t He _ IH]; [reflexivity |].
  rewrite filter_cons_False; [exact IH |]. lia.
Qed.

(** In an ordered table a key occurs at most once. *)
Lemma ordered_unique (k : PEPROCESS) (t : list _NODE) :
  ordered t -> (length (filter (fun node => Key node = k) t) <= 1)%nat.
Proof.
  induction t as [| e t IH]; intros Ho; [simpl; lia |].
  apply ordered_cons in Ho as [Ho Hf].
  destruct (decide (Key e = k)) as [He | He].
  - rewrite filter_cons_True by exact He.
    rewrite filter_above by (rewrite <- He; exact Hf). simpl. lia.
  - rewrite filter_cons_False by exact He. auto.
Qed.

(** *** What each method computes *)

Ltac unfold_M :=
  unfold load, store, ASSERT in *;
  unfold bind, ret, fault, kernel, get_table, set_table, set_mutex in *.

Lemma with_table_id (pm : ProcessMap) : with_table pm (m_table pm) = pm.
Proof. destruct pm. reflexivity. Qed.

Lemma operator_index_eq (key : PEPROCESS) (pm : ProcessMap) :
  operator_index key pm =
    Some (find (m_table pm) key, pm, [KRtlLookupElementGenericTableAvl]).
Proof.
  unfold operator_index, Lookup, find. unfold_M. simpl.
  destruct (lookup_ _ _); reflexivity.
Qed.

Lemma entry_Some (pm : ProcessMap) (process : PEPROCESS)
    (info : PROCESS_HANDLER_INFORMATION) :
  entry pm process = Some info <->
  exists p node, find (m_table pm) process = Some p /\
    m_table pm !! p = Some node /\ Value node = info.
Proof.
  unfold entry. split.
  - intros H. destruct (find _ _) as [p |]; simpl in H; [| discriminate].
    destruct (m_table pm !! p) as [node |] eqn:Hn; simpl in H;
      [| discriminate].
    exists p, node. repeat split; congruence.
  - intros (p & node & Hf & Hn & Hv). rewrite Hf. simpl. rewrite Hn. simpl.
    congruence.
Qed.

Lemma entry_None (pm : ProcessMap) (process : PEPROCESS) :
  entry pm process = None <-> find (m_table pm) process = None.
Proof.
  unfold entry. split.
  - intros H. destruct (find _ _) as [p |] eqn:Hf; [| reflexivity].
    destruct (lookup_Some _ _ _ Hf) as (e & He & _).
    simpl in H. rewrite He in H. discriminate.
  - intros ->. reflexivity.
Qed.

Lemma load_found (pm : ProcessMap) (process : PEPROCESS) (p : nat) :
  find (m_table pm) process = Some p ->
  exists node, m_table pm !! p = Some node /\ Key node = process /\
    load p pm = Some (Value node, pm, []).
Proof.
  intros Hf. destruct (lookup_Some _ _ _ Hf) as (e & He & Hk).
  exists e. repeat split; try assumption.
  unfold_M. simpl. rewrite He. reflexivity.
Qed.

Lemma ProcessBelongsToHandler_eq (process : PEPROCESS) (handler : DWORD)
    (pm : ProcessMap) :
  ProcessBelongsToHandler process handler pm =
    Some (match entry pm process with
          | Some info => Handler info =? handler
          | None => false
          end, pm, [KRtlLookupElementGenericTableAvl]).
Proof.
  unfold ProcessBelongsToHandler, bind at 1. rewrite operator_index_eq.
  unfold entry. destruct (find _ _) as [p |] eqn:Hf; [| reflexivity].
  destruct (load_found _ _ _ Hf) as (node & Hn & _ & Hl).
  unfold bind. rewrite Hl. simpl. rewrite Hn. reflexivity.
Qed.

Lemma GetProcessHandler_eq (process : PEPROCESS) (out : DWORD)
    (pm : ProcessMap) :
  GetProcessHandler process (Some out) pm =
    Some (match entry pm process with
          | Some info => (STATUS_SUCCESS, Some (Handler info))
          | None => (STATUS_NOT_FOUND, Some out)
          end, pm, [KRtlLookupElementGenericTableAvl]).
Proof.
  unfold GetProcessHandler, bind at 1. rewrite operator_index_eq.
  unfold entry. destruct (find _ _) as [p |] eqn:Hf; [| reflexivity].
  destruct (load_found _ _ _ Hf) as (node & Hn & _ & Hl).
  unfold bind. rewrite Hl. simpl. rewrite Hn. reflexivity.
Qed.

Lemma GetProcessHandlerInformation_eq (process : PEPROCESS)
    (out : PROCESS_HANDLER_INFORMATION) (pm : ProcessMap) :
  GetProcessHandlerInformation process (Some out) pm =
    Some (match entry pm process with
          | Some info => (STATUS_SUCCESS, Some info)
          | None => (STATUS_NOT_FOUND, Some out)
          end, pm, [KRtlLookupElementGenericTableAvl]).
Proof.
  unfold GetProcessHandlerInformation, bind at 1. rewrite operator_index_eq.
  unfold entry. destruct (find _ _) as [p |] eqn:Hf; [| reflexivity].
  destruct (load_found _ _ _ Hf) as (node & Hn & _ & Hl).
  unfold bind. rewrite Hl. simpl. rewrite Hn. reflexivity.
Qed.

Lemma RegisterProcessHandler_present (pool : bool) (process : PEPROCESS)
    (handler : DWORD) (pm : ProcessMap) (p : nat) :
  find (m_table pm) process = Some p ->
  RegisterProcessHandler pool process handler pm =
    Some (STATUS_ALREADY_REGISTERED, pm, [KRtlInsertElementGenericTableAvl]).
Proof.
  intros Hf. unfold RegisterProcessHandler, Insert. unfold_M. simpl.
  rewrite lookup_find. simpl. rewrite Hf. reflexivity.
Qed.

Lemma RegisterProcessHandler_no_pool (process : PEPROCESS) (handler : DWORD)
    (pm : ProcessMap) :
  find (m_table pm) process = None ->
  RegisterProcessHandler false process handler pm =
    Some (STATUS_INSUFFICIENT_RESOURCES, pm,
          [KRtlInsertElementGenericTableAvl; KExAllocatePoolZero]).
Proof.
  intros Hf. unfold RegisterProcessHandler, Insert, _AllocateRoutine.
  unfold_M. simpl. rewrite lookup_find. simpl. rewrite Hf.
  rewrite insert_no_pool by (rewrite lookup_find; exact Hf).
  simpl. rewrite with_table_id. reflexivity.
Qed.

Lemma RegisterProcessHandler_fresh (process : PEPROCESS) (handler : DWORD)
    (pm : ProcessMap) :
  find (m_table pm) process = None ->
  exists t' p,
    RegisterProcessHandler true process handler pm =
      Some (STATUS_SUCCESS, with_table pm t',
            [KRtlInsertElementGenericTableAvl; KExAllocatePoolZero]) /\
    find t' process = Some p /\
    t' !! p = Some {| Key := process; Value := with_Handler handler zeroed |} /\
    delete_ t' {| Key := process; Value := zeroed |} = (m_table pm, true) /\
    t' = (insert_ true (m_table pm)
            {| Key := process; Value := with_Handler handler zeroed |}).1.1.
Proof.
  intros Hf.
  set (node := {| Key := process; Value := with_Handler handler zeroed |}).
  assert (Hl : lookup_ (m_table pm) node = None)
    by (rewrite lookup_find; exact Hf).
  destruct (insert_fresh _ _ Hl) as (t' & p & Hi & Hl' & Hn & Hd & _).
  exists t', p. repeat split.
  - unfold RegisterProcessHandler, Insert, _AllocateRoutine. unfold_M. simpl.
    fold node. rewrite Hl, Hi. simpl. rewrite Hn. simpl.
    rewrite Z.eqb_refl. reflexivity.
  - rewrite <- Hl'. symmetry. apply lookup_find.
  - exact Hn.
  - rewrite <- Hd. apply delete_ext. reflexivity.
  - rewrite Hi. reflexivity.
Qed.

Lemma UnregisterProcess_absent (process : PEPROCESS) (pm : ProcessMap) :
  find (m_table pm) process = None ->
  UnregisterProcess process pm =
    Some (STATUS_NOT_FOUND, pm, [KRtlDeleteElementGenericTableAvl]).
Proof.
  intros Hf. unfold UnregisterProcess, Delete. unfold_M. simpl.
  rewrite (delete_absent _ _ Hf). reflexivity.
Qed.

Lemma UnregisterProcess_present (process : PEPROCESS) (pm : ProcessMap)
    (p : nat) :
  find (m_table pm) process = Some p ->
  UnregisterProcess process pm =
    Some (STATUS_SUCCESS, with_table pm (delete p (m_table pm)),
          [KRtlDeleteElementGenericTableAvl; KExFreePoolWithTag]).
Proof.
  intros Hf. unfold UnregisterProcess, Delete, _FreeRoutine. unfold_M. simpl.
  rewrite (delete_found _ _ _ Hf). reflexivity.
Qed.

Lemma handoff_eq (p : nat) (internal : bool) (newHandler : DWORD)
    (pm : ProcessMap) (node : _NODE) :
  m_table pm !! p = Some node ->
  SwitchProcessHandler_handoff p internal newHandler pm =
    if HasParentHandler (Value node)
    then Some (STATUS_NOT_IMPLEMENTED, pm, [])
    else Some (STATUS_SUCCESS,
               with_table pm
                 (<[p := {| Key := Key node;
                            Value := delegated newHandler internal
                                       (Handler (Value node)) |}]>
                    (m_table pm)), []).
Proof.
  intros Hn. unfold SwitchProcessHandler_handoff. unfold_M. simpl.
  rewrite Hn. simpl.
  destruct (HasParentHandler (Value node)); simpl; [reflexivity |].
  rewrite Hn. reflexivity.
Qed.

Lemma SwitchProcessHandler_present (pool : bool) (process : PEPROCESS)
    (newHandler : DWORD) (pm : ProcessMap) (p : nat) (node : _NODE) :
  find (m_table pm) process = Some p ->
  m_table pm !! p = Some node ->
  SwitchProcessHandler pool process newHandler pm =
    if HasParentHandler (Value node)
    then Some (STATUS_NOT_IMPLEMENTED, pm, [KRtlLookupElementGenericTableAvl])
    else Some (STATUS_SUCCESS,
               with_table pm
                 (<[p := {| Key := Key node;
                            Value := delegated newHandler true
                                       (Handler (Value node)) |}]>
                    (m_table pm)),
               [KRtlLookupElementGenericTableAvl]).
Proof.
  intros Hf Hn. unfold SwitchProcessHandler, bind.
  rewrite operator_index_eq, Hf, (handoff_eq _ _ _ _ _ Hn).
  destruct (HasParentHandler (Value node)); reflexivity.
Qed.

Lemma SwitchProcessHandler_no_pool (process : PEPROCESS) (newHandler : DWORD)
    (pm : ProcessMap) :
  find (m_table pm) process = None ->
  SwitchProcessHandler false process newHandler pm =
    Some (STATUS_INSUFFICIENT_RESOURCES, pm,
          [KRtlLookupElementGenericTableAvl;
           KRtlInsertElementGenericTableAvl; KExAllocatePoolZero]).
Proof.
  intros Hf. unfold SwitchProcessHandler, bind at 1.
  rewrite operator_index_eq, Hf. unfold bind.
  rewrite (RegisterProcessHandler_no_pool _ _ _ Hf). reflexivity.
Qed.

Lemma SwitchProcessHandler_fresh (process : PEPROCESS) (newHandler : DWORD)
    (pm : ProcessMap) :
  find (m_table pm) process = None ->
  exists t' p,
    t' = (insert_ true (m_table pm)
            {| Key := process;
               Value := with_Handler (DWORD_cast (-1)) zeroed |}).1.1 /\
    find t' process = Some p /\
    t' !! p = Some {| Key := process;
                      Value := with_Handler (DWORD_cast (-1)) zeroed |} /\
    SwitchProcessHandler true process newHandler pm =
      Some (STATUS_SUCCESS,
            with_table pm
              (<[p := {| Key := process;
                         Value := delegated newHandler false
                                    (DWORD_cast (-1)) |}]> t'),
            [KRtlLookupElementGenericTableAvl;
             KRtlInsertElementGenericTableAvl; KExAllocatePoolZero;
             KRtlLookupElementGenericTableAvl]).
Proof.
  intros Hf.
  destruct (RegisterProcessHandler_fresh process (DWORD_cast (-1)) pm Hf)
    as (t' & p & Hr & Hf' & Hn & _ & Ht').
  exists t', p. repeat split; try assumption.
  unfold SwitchProcessHandler, bind at 1.
  rewrite operator_index_eq, Hf. unfold bind at 1. rewrite Hr.
  change (negb (NT_SUCCESS STATUS_SUCCESS)) with false. cbv iota.
  unfold bind at 1. rewrite operator_index_eq. simpl m_table. rewrite Hf'.
  unfold bind, ASSERT, not_NULL, ret.
  rewrite (handoff_eq p false newHandler (with_table pm t') _ Hn).
  reflexivity.
Qed.

(** *** The loop of [Clear] *)

Lemma Clear_loop_empties (pm : ProcessMap) (t : list _NODE) (fuel : nat) :
  (length t < fuel)%nat ->
  exists l, Clear_loop fuel (with_table pm t) = Some (tt, with_table pm [], l)
    /\ leaves_mutex_alone l = true.
Proof.
  revert fuel. induction t as [| e t IH]; intros fuel Hlen.
  - destruct fuel as [| fuel]; [simpl in Hlen; lia |].
    eexists. split; [reflexivity | reflexivity].
  - destruct fuel as [| fuel]; [simpl in Hlen; lia |].
    destruct (IH fuel) as (l & Hl & Hm); [simpl in Hlen; lia |].
    exists ([KRtlEnumerateGenericTableAvl; KRtlDeleteElementGenericTableAvl;
             KExFreePoolWithTag] ++ l).
    split; [| simpl; exact Hm].
    simpl. unfold Enumerate, Delete, _FreeRoutine. unfold_M. simpl.
    rewrite (CompareRoutine_refl e e eq_refl). simpl.
    unfold with_table in Hl. simpl in Hl. unfold with_table. simpl.
    rewrite Hl. reflexivity.
Qed.

Lemma Clear_empties (pm : ProcessMap) :
  exists l, Clear pm = Some (tt, with_table pm [], l)
    /\ leaves_mutex_alone l = true.
Proof.
  destruct (Clear_loop_empties pm (m_table pm) (S (length (m_table pm))))
    as (l & Hl & Hm); [lia |].
  exists l. split; [| exact Hm].
  rewrite with_table_id in Hl. unfold Clear, bind, get_table.
  rewrite Hl. reflexivity.
Qed.

(** *** Every operation runs to its end, and what it preserves *)

Lemma preserved_same (pm : ProcessMap) (l : list KCALL) :
  leaves_mutex_alone l = true -> preserved pm pm l.
Proof. intros H. repeat split; auto. Qed.

Lemma Initialize_eq (pm : ProcessMap) :
  Initialize pm =
    Some (tt, {| m_table := []; m_mutex := ExInitializeFastMutex |},
          [KRtlInitializeGenericTableAvl; KExInitializeFastMutex]).
Proof. reflexivity. Qed.

Lemma then_ret {A} (m : M A) (pm pm' : ProcessMap) (a : A) (l : list KCALL) :
  m pm = Some (a, pm', l) -> (m ;;; ret tt) pm = Some (tt, pm', l).
Proof. intros H. unfold bind, ret. rewrite H, app_nil_r. reflexivity. Qed.

Lemma perform_spec (op : Operation) (pm : ProcessMap) :
  exists pm' l, perform op pm = Some (tt, pm', l) /\ preserved pm pm' l.
Proof.
  destruct op as [process | process handler | process [out |]
                 | process [out |] | pool process handler
                 | pool process newHandler | process |]; simpl.
  - eexists _, _. split; [eapply then_ret; apply operator_index_eq |].
    apply preserved_same. reflexivity.
  - eexists _, _. split; [eapply then_ret; apply ProcessBelongsToHandler_eq |].
    apply preserved_same. reflexivity.
  - eexists _, _. split; [eapply then_ret; apply GetProcessHandler_eq |].
    apply preserved_same. reflexivity.
  - eexists _, _. split; [eapply then_ret; reflexivity |].
    apply preserved_same. reflexivity.
  - eexists _, _. split; [eapply then_ret; apply GetProcessHandlerInformation_eq |].
    apply preserved_same. reflexivity.
  - eexists _, _. split; [eapply then_ret; reflexivity |].
    apply preserved_same. reflexivity.
  - destruct (find (m_table pm) process) as [p |] eqn:Hf.
    + eexists _, _. split;
        [eapply then_ret; apply (RegisterProcessHandler_present _ _ _ _ _ Hf) |].
      apply preserved_same. reflexivity.
    + destruct pool.
      * destruct (RegisterProcessHandler_fresh process handler pm Hf)
          as (t' & p & Hr & _ & _ & _ & Ht').
        eexists _, _. split; [eapply then_ret; apply Hr |].
        repeat split. simpl. rewrite Ht'. apply ordered_insert.
      * eexists _, _. split;
          [eapply then_ret; apply (RegisterProcessHandler_no_pool _ _ _ Hf) |].
        apply preserved_same. reflexivity.
  - destruct (find (m_table pm) process) as [p |] eqn:Hf.
    + destruct (load_found _ _ _ Hf) as (node & Hn & _ & _).
      pose proof (SwitchProcessHandler_present pool process newHandler
                    pm p node Hf Hn) as Hs.
      destruct (HasParentHandler (Value node)).
      * eexists _, _. split; [eapply then_ret; apply Hs |].
        apply preserved_same. reflexivity.
      * eexists _, _. split; [eapply then_ret; apply Hs |].
        repeat split. simpl. apply ordered_store. exact Hn.
    + destruct pool.
      * destruct (SwitchProcessHandler_fresh process newHandler pm Hf)
          as (t' & p & Ht' & _ & Hn & Hs).
        eexists _, _. split; [eapply then_ret; apply Hs |].
        repeat split. simpl. intros Ho.
        apply (ordered_store t' p _ _ Hn).
        rewrite Ht'. apply ordered_insert. exact Ho.
      * eexists _, _. split;
          [eapply then_ret; apply (SwitchProcessHandler_no_pool _ _ _ Hf) |].
        apply preserved_same. reflexivity.
  - destruct (find (m_table pm) process) as [p |] eqn:Hf.
    + eexists _, _. split;
        [eapply then_ret; apply (UnregisterProcess_present _ _ _ Hf) |].
      repeat split. simpl. intros Ho.
      pose proof (ordered_delete (m_table pm)
                    {| Key := process; Value := zeroed |} Ho) as Hd.
      rewrite (delete_found _ _ _ Hf) in Hd. exact Hd.
    + eexists _, _. split;
        [eapply then_ret; apply (UnregisterProcess_absent _ _ Hf) |].
      apply preserved_same. reflexivity.
  - destruct (Clear_empties pm) as (l & Hl & Hm).
    exists (with_table pm []), l. split; [exact Hl |].
    repeat split; [exact Hm |]. intros _. exact ordered_nil.
Qed.

Lemma perform_all_spec (ops : list Operation) (pm : ProcessMap) :
  exists pm' l, perform_all ops pm = Some (tt, pm', l) /\ preserved pm pm' l.
Proof.
  revert pm. induction ops as [| op ops IH]; intros pm; simpl.
  - exists pm, []. split; [reflexivity |]. apply preserved_same. reflexivity.
  - destruct (perform_spec op pm) as (pm1 & l1 & H1 & Hm1 & Hl1 & Ho1).
    destruct (IH pm1) as (pm2 & l2 & H2 & Hm2 & Hl2 & Ho2).
    exists pm2, (l1 ++ l2). split.
    + unfold bind. rewrite H1, H2. reflexivity.
    + repeat split; [congruence | | auto].
      unfold leaves_mutex_alone in *. rewrite forallb_app, Hl1, Hl2.
      reflexivity.
Qed.

Lemma run_from_Initialize (ops : list Operation) (pm0 : ProcessMap) :
  exists pm, exec (Initialize ;;; perform_all ops) pm0 = Some (tt, pm) /\
    ordered (m_table pm).
Proof.
  destruct (perform_all_spec ops
              {| m_table := []; m_mutex := ExInitializeFastMutex |})
    as (pm & l & H & _ & _ & Ho).
  exists pm. split; [| apply Ho; exact ordered_nil].
  unfold exec, bind. rewrite Initialize_eq, H. reflexivity.
Qed.

Lemma reachable_ordered (pm : ProcessMap) :
  reachable pm -> ordered (m_table pm).
Proof.
  intros (pm0 & ops & H).
  destruct (run_from_Initialize ops pm0) as (pm' & H' & Ho).
  rewrite H in H'. injection H' as ->. exact Ho.
Qed.

(** In an ordered table the lookup finds every key that is there. *)
Lemma find_complete (t : list _NODE) (e : _NODE) :
  ordered t -> e ∈ t -> is_Some (find t (Key e)).
Proof.
  unfold find. induction t as [| x t IH]; intros Ho He.
  - inversion He.
  - apply ordered_cons in Ho as [Ho Hf]. simpl.
    rewrite CompareRoutine_key. simpl.
    apply elem_of_cons in He as [-> | He].
    + rewrite N.compare_refl. eauto.
    + rewrite Forall_forall in Hf. specialize (Hf e He).
      destruct (N.compare_spec (Key e) (Key x)); [lia | lia |].
      destruct (IH Ho He) as [p Hp]. rewrite Hp. simpl. eauto.
Qed.

Lemma entries_for_present (pm : ProcessMap) (process : PEPROCESS) :
  ordered (m_table pm) -> (0 < entries_for process pm)%nat ->
  is_Some (find (m_table pm) process).
Proof.
  unfold entries_for. intros Ho Hlen.
  destruct (filter _ (m_table pm)) as [| e l] eqn:Hfl; [simpl in Hlen; lia |].
  assert (He : e ∈ filter (fun node => Key node = process) (m_table pm))
    by (rewrite Hfl; left).
  apply list_elem_of_filter in He as [Hk He].
  rewrite <- Hk. apply find_complete; assumption.
Qed.

(** *** The three cases of a handoff *)

Lemma entry_store (pm : ProcessMap) (t : list _NODE) (process : PEPROCESS)
    (p : nat) (node : _NODE) (v : PROCESS_HANDLER_INFORMATION) :
  find t process = Some p -> t !! p = Some node ->
  entry (with_table pm (<[p := {| Key := Key node; Value := v |}]> t))
    process = Some v.
Proof.
  intros Hf Hn. unfold entry, find. simpl.
  rewrite (lookup_store t _ p node v Hn). fold (find t process).
  rewrite Hf. simpl.
  rewrite list_lookup_insert_eq by (eapply lookup_lt_Some; exact Hn).
  reflexivity.
Qed.

Lemma Switch_delegated (pm : ProcessMap) (process : PEPROCESS) (pool : bool)
    (newHandler : DWORD) (info : PROCESS_HANDLER_INFORMATION) :
  entry pm process = Some info -> HasParentHandler info = true ->
  SwitchProcessHandler pool process newHandler pm =
    Some (STATUS_NOT_IMPLEMENTED, pm, [KRtlLookupElementGenericTableAvl]).
Proof.
  intros He Hp. apply entry_Some in He as (p & node & Hf & Hn & <-).
  rewrite (SwitchProcessHandler_present _ _ _ _ _ _ Hf Hn), Hp.
  reflexivity.
Qed.

Lemma Switch_registered (pm : ProcessMap) (process : PEPROCESS) (pool : bool)
    (newHandler : DWORD) (info : PROCESS_HANDLER_INFORMATION) :
  entry pm process = Some info -> HasParentHandler info = false ->
  exists pm',
    SwitchProcessHandler pool process newHandler pm =
      Some (STATUS_SUCCESS, pm', [KRtlLookupElementGenericTableAvl]) /\
    entry pm' process = Some (delegated newHandler true (Handler info)).
Proof.
  intros He Hp. apply entry_Some in He as (p & node & Hf & Hn & <-).
  eexists. split.
  - rewrite (SwitchProcessHandler_present _ _ _ _ _ _ Hf Hn), Hp.
    reflexivity.
  - apply entry_store; assumption.
Qed.

Lemma Switch_unregistered (pm : ProcessMap) (process : PEPROCESS)
    (newHandler : DWORD) :
  entry pm process = None ->
  exists pm',
    SwitchProcessHandler true process newHandler pm =
      Some (STATUS_SUCCESS, pm',
            [KRtlLookupElementGenericTableAvl;
             KRtlInsertElementGenericTableAvl; KExAllocatePoolZero;
             KRtlLookupElementGenericTableAvl]) /\
    entry pm' process = Some (delegated newHandler false (DWORD_cast (-1))).
Proof.
  intros He. apply entry_None in He.
  destruct (SwitchProcessHandler_fresh process newHandler pm He)
    as (t' & p & _ & Hf & Hn & Hs).
  eexists. split; [exact Hs |].
  apply (entry_store pm t' process p _ _ Hf Hn).
Qed.

Lemma query_entry (pm : ProcessMap) (process : PEPROCESS)
    (out info : PROCESS_HANDLER_INFORMATION) :
  entry pm process = Some info ->
  exec (GetProcessHandlerInformation process (Some out)) pm =
    Some ((STATUS_SUCCESS, Some info), pm).
Proof.
  intros He. unfold exec.
  rewrite GetProcessHandlerInformation_eq, He. reflexivity.
Qed.

(** *** The handoff protocol *)

(** C1. For a process whose entry has [HasParentHandler] set, a call of
    [SwitchProcessHandler] returns STATUS_NOT_IMPLEMENTED and leaves the
    object as it was, so the entry keeps its four members. *)
Theorem SwitchProcessHandler_single_level
    (pm : ProcessMap) (process : PEPROCESS) (pool : bool) (H3 : DWORD)
    (info : PROCESS_HANDLER_INFORMATION) :
  entry pm process = Some info ->
  HasParentHandler info = true ->
  exists pm',
    exec (SwitchProcessHandler pool process H3) pm =
      Some (STATUS_NOT_IMPLEMENTED, pm') /\
    pm' = pm /\
    entry pm' process = Some info.
Proof.
  intros He Hp. exists pm. split; [| split; [reflexivity | exact He]].
  unfold exec. rewrite (Switch_delegated pm process pool H3 info He Hp).
  reflexivity.
Qed.

Lemma SwitchProcessHandler_single_level_witness :
  exists pm',
    exec (SwitchProcessHandler true 4096%N 3) delegated_map =
      Some (STATUS_NOT_IMPLEMENTED, pm') /\
    pm' = delegated_map /\
    entry pm' 4096%N = Some (delegated 2 true 1).
Proof.
  apply (SwitchProcessHandler_single_level delegated_map 4096%N true 3
           (delegated 2 true 1)); reflexivity.
Defined.

(** The flag is set by every successful handoff, so a second call after a
    successful one is such a call. *)
Lemma SwitchProcessHandler_twice (pm pm' : ProcessMap) (process : PEPROCESS)
    (pool pool' : bool) (H2 H3 : DWORD) :
  exec (SwitchProcessHandler pool process H2) pm = Some (STATUS_SUCCESS, pm') ->
  exec (SwitchProcessHandler pool' process H3) pm' =
    Some (STATUS_NOT_IMPLEMENTED, pm').
Proof.
  intros Hs.
  assert (He : exists info, entry pm' process = Some info /\
                            HasParentHandler info = true).
  { destruct (entry pm process) as [info |] eqn:He.
    - destruct (HasParentHandler info) eqn:Hp.
      + unfold exec in Hs.
        rewrite (Switch_delegated pm process pool H2 info He Hp) in Hs.
        discriminate.
      + destruct (Switch_registered pm process pool H2 info He Hp)
          as (pm1 & Hs1 & He1).
        unfold exec in Hs. rewrite Hs1 in Hs. simpl in Hs.
        injection Hs as <-. eauto.
    - destruct pool.
      + destruct (Switch_unregistered pm process H2 He) as (pm1 & Hs1 & He1).
        unfold exec in Hs. rewrite Hs1 in Hs. simpl in Hs.
        injection Hs as <-. eauto.
      + apply entry_None in He. unfold exec in Hs.
        rewrite (SwitchProcessHandler_no_pool _ _ _ He) in Hs.
        discriminate. }
  destruct He as (info & He & Hp).
  unfold exec. rewrite (Switch_delegated pm' process pool' H3 info He Hp).
  reflexivity.
Qed.

(** C2. From an entry with handler [H1] and no parent, the handoff to
    [H2] succeeds, and the query for the whole entry then reports handler
    [H2], [HasParentHandler] set and parent [H1]. *)
Theorem SwitchProcessHandler_parent
    (pm : ProcessMap) (process : PEPROCESS) (pool : bool) (H1 H2 : DWORD)
    (info out : PROCESS_HANDLER_INFORMATION) :
  entry pm process = Some info ->
  HasParentHandler info = false ->
  Handler info = H1 ->
  exists pm' reported,
    exec (SwitchProcessHandler pool process H2) pm =
      Some (STATUS_SUCCESS, pm') /\
    exec (GetProcessHandlerInformation process (Some out)) pm' =
      Some ((STATUS_SUCCESS, Some reported), pm') /\
    Handler reported = H2 /\
    HasParentHandler reported = true /\
    ParentHandler reported = H1.
Proof.
  intros He Hp <-.
  destruct (Switch_registered pm process pool H2 info He Hp)
    as (pm' & Hs & He').
  exists pm', (delegated H2 true (Handler info)). split.
  - unfold exec. rewrite Hs. reflexivity.
  - split; [apply query_entry; exact He' |]. repeat split.
Qed.

Lemma SwitchProcessHandler_parent_witness :
  exists pm' reported,
    exec (SwitchProcessHandler true 4096%N 2) registered_map =
      Some (STATUS_SUCCESS, pm') /\
    exec (GetProcessHandlerInformation 4096%N (Some zeroed)) pm' =
      Some ((STATUS_SUCCESS, Some reported), pm') /\
    Handler reported = 2 /\
    HasParentHandler reported = true /\
    ParentHandler reported = 1.
Proof.
  apply (SwitchProcessHandler_parent registered_map 4096%N true 1 2
           (with_Handler 1 zeroed) zeroed); reflexivity.
Defined.

(** C3. For a process without an entry the handoff first registers it
    under the handler [(DWORD)-1] and then hands it off.  When the pool
    serves the node, the registration succeeds and leaves an entry under
    [(DWORD)-1], and the handoff succeeds and leaves handler [H2],
    [HasParentHandler] set, [HasInternalParentHandler] clear and parent
    [(DWORD)-1].  When the pool does not, the registration fails with
    STATUS_INSUFFICIENT_RESOURCES, the handoff returns that status, and
    the registry is as it was, without an entry for the process.  In
    general a failing status of the registration is the status of the
    handoff. *)
Theorem SwitchProcessHandler_implicit_registration
    (pm : ProcessMap) (process : PEPROCESS) (H2 : DWORD) :
  entry pm process = None ->
  (exists pm1 pm',
     exec (RegisterProcessHandler true process (DWORD_cast (-1))) pm =
       Some (STATUS_SUCCESS, pm1) /\
     entry pm1 process =
       Some {| Handler := 0xFFFFFFFF; HasParentHandler := false;
               HasInternalParentHandler := false; ParentHandler := 0 |} /\
     exec (SwitchProcessHandler true process H2) pm =
       Some (STATUS_SUCCESS, pm') /\
     entry pm' process =
       Some {| Handler := H2; HasParentHandler := true;
               HasInternalParentHandler := false;
               ParentHandler := 0xFFFFFFFF |} /\
     calls (SwitchProcessHandler true process H2) pm =
       Some [KRtlLookupElementGenericTableAvl;
             KRtlInsertElementGenericTableAvl; KExAllocatePoolZero;
             KRtlLookupElementGenericTableAvl]) /\
  (exec (RegisterProcessHandler false process (DWORD_cast (-1))) pm =
     Some (STATUS_INSUFFICIENT_RESOURCES, pm) /\
   exec (SwitchProcessHandler false process H2) pm =
     Some (STATUS_INSUFFICIENT_RESOURCES, pm) /\
   entry pm process = None) /\
  (forall pool status pm1,
     exec (RegisterProcessHandler pool process (DWORD_cast (-1))) pm =
       Some (status, pm1) ->
     NT_SUCCESS status = false ->
     exec (SwitchProcessHandler pool process H2) pm = Some (status, pm1) /\
     entry pm1 process = None).
Proof.
  intros He. pose proof He as Hf. apply entry_None in Hf.
  destruct (RegisterProcessHandler_fresh process (DWORD_cast (-1)) pm Hf)
    as (t' & p & Hr & Hf' & Hn & _).
  destruct (Switch_unregistered pm process H2 He) as (pm' & Hs & He').
  split; [| split].
  - exists (with_table pm t'), pm'. unfold exec, calls. rewrite Hr, Hs.
    split; [reflexivity |]. split; [| split; [reflexivity |]].
    + apply entry_Some. eexists p, _. simpl.
      split; [exact Hf' | split; [exact Hn | reflexivity]].
    + split; [exact He' | reflexivity].
  - unfold exec.
    rewrite (RegisterProcessHandler_no_pool _ _ _ Hf),
      (SwitchProcessHandler_no_pool _ _ _ Hf).
    split; [reflexivity |]. split; [reflexivity | exact He].
  - intros pool status pm1 Hreg Hfail. unfold exec in *. destruct pool.
    + rewrite Hr in Hreg. simpl in Hreg. injection Hreg as <- <-.
      discriminate Hfail.
    + rewrite (RegisterProcessHandler_no_pool _ _ _ Hf) in Hreg.
      simpl in Hreg. injection Hreg as <- <-.
      rewrite (SwitchProcessHandler_no_pool _ _ _ Hf).
      split; [reflexivity | exact He].
Qed.

Lemma SwitchProcessHandler_implicit_registration_witness :
  (exists pm1 pm',
     exec (RegisterProcessHandler true 4096%N (DWORD_cast (-1))) empty_map =
       Some (STATUS_SUCCESS, pm1) /\
     entry pm1 4096%N =
       Some {| Handler := 0xFFFFFFFF; HasParentHandler := false;
               HasInternalParentHandler := false; ParentHandler := 0 |} /\
     exec (SwitchProcessHandler true 4096%N 2) empty_map =
       Some (STATUS_SUCCESS, pm') /\
     entry pm' 4096%N =
       Some {| Handler := 2; HasParentHandler := true;
               HasInternalParentHandler := false;
               ParentHandler := 0xFFFFFFFF |} /\
     calls (SwitchProcessHandler true 4096%N 2) empty_map =
       Some [KRtlLookupElementGenericTableAvl;
             KRtlInsertElementGenericTableAvl; KExAllocatePoolZero;
             KRtlLookupElementGenericTableAvl]) /\
  (exec (RegisterProcessHandler false 4096%N (DWORD_cast (-1))) empty_map =
     Some (STATUS_INSUFFICIENT_RESOURCES, empty_map) /\
   exec (SwitchProcessHandler false 4096%N 2) empty_map =
     Some (STATUS_INSUFFICIENT_RESOURCES, empty_map) /\
   entry empty_map 4096%N = None) /\
  (forall pool status pm1,
     exec (RegisterProcessHandler pool 4096%N (DWORD_cast (-1))) empty_map =
       Some (status, pm1) ->
     NT_SUCCESS status = false ->
     exec (SwitchProcessHandler pool 4096%N 2) empty_map =
       Some (status, pm1) /\
     entry pm1 4096%N = None).
Proof.
  apply (SwitchProcessHandler_implicit_registration empty_map 4096%N 2).
  reflexivity.
Defined.

(** C10. The new handler is not compared with the current one: from an
    entry with handler [H] and no parent, the handoff to [H] itself
    succeeds, leaves [H] as handler and as parent, and is the one handoff
    the process is allowed. *)
Theorem SwitchProcessHandler_to_current_handler
    (pm : ProcessMap) (process : PEPROCESS) (pool : bool) (H : DWORD)
    (info : PROCESS_HANDLER_INFORMATION) :
  entry pm process = Some info ->
  HasParentHandler info = false ->
  Handler info = H ->
  exists pm',
    exec (SwitchProcessHandler pool process H) pm =
      Some (STATUS_SUCCESS, pm') /\
    entry pm' process =
      Some {| Handler := H; HasParentHandler := true;
              HasInternalParentHandler := true; ParentHandler := H |} /\
    forall pool' H',
      exec (SwitchProcessHandler pool' process H') pm' =
        Some (STATUS_NOT_IMPLEMENTED, pm').
Proof.
  intros He Hp <-.
  destruct (Switch_registered pm process pool (Handler info) info He Hp)
    as (pm' & Hs & He').
  exists pm'. split; [unfold exec; rewrite Hs; reflexivity |].
  split; [exact He' |]. intros pool' H'.
  unfold exec. rewrite (Switch_delegated pm' process pool' H' _ He' eq_refl).
  reflexivity.
Qed.

Lemma SwitchProcessHandler_to_current_handler_witness :
  exists pm',
    exec (SwitchProcessHandler false 4096%N 1) registered_map =
      Some (STATUS_SUCCESS, pm') /\
    entry pm' 4096%N =
      Some {| Handler := 1; HasParentHandler := true;
              HasInternalParentHandler := true; ParentHandler := 1 |} /\
    forall pool' H',
      exec (SwitchProcessHandler pool' 4096%N H') pm' =
        Some (STATUS_NOT_IMPLEMENTED, pm').
Proof.
  apply (SwitchProcessHandler_to_current_handler registered_map 4096%N false
           1 (with_Handler 1 zeroed)); reflexivity.
Defined.

(** *** Registration, query and removal *)

(** C7. For a process without an entry, a registration under [H] that
    succeeds is followed by a query that returns [H] with STATUS_SUCCESS;
    the removal of the process then succeeds and a further query returns
    STATUS_NOT_FOUND and leaves the caller's variable as it was. *)
Theorem RegisterProcessHandler_round_trip
    (pm pm1 : ProcessMap) (process : PEPROCESS) (pool : bool)
    (H out : DWORD) :
  entry pm process = None ->
  exec (RegisterProcessHandler pool process H) pm =
    Some (STATUS_SUCCESS, pm1) ->
  exec (GetProcessHandler process (Some out)) pm1 =
    Some ((STATUS_SUCCESS, Some H), pm1) /\
  exists pm2,
    exec (UnregisterProcess process) pm1 = Some (STATUS_SUCCESS, pm2) /\
    exec (GetProcessHandler process (Some out)) pm2 =
      Some ((STATUS_NOT_FOUND, Some out), pm2) /\
    pm2 = pm.
Proof.
  intros He Hr. pose proof He as Hf. apply entry_None in Hf.
  destruct pool.
  - destruct (RegisterProcessHandler_fresh process H pm Hf)
      as (t' & p & Hr' & Hf' & Hn & Hd & _).
    unfold exec in Hr. rewrite Hr' in Hr. simpl in Hr. injection Hr as <-.
    assert (He1 : entry (with_table pm t') process =
                  Some (with_Handler H zeroed)).
    { apply entry_Some. eexists p, _. simpl.
      split; [exact Hf' | split; [exact Hn | reflexivity]]. }
    split.
    + unfold exec. rewrite GetProcessHandler_eq, He1. reflexivity.
    + exists pm. split; [| split; [| reflexivity]].
      * unfold exec.
        rewrite (UnregisterProcess_present process (with_table pm t') p Hf').
        simpl. rewrite (delete_found _ _ _ Hf') in Hd.
        injection Hd as ->. unfold with_table. simpl.
        destruct pm; reflexivity.
      * unfold exec. rewrite GetProcessHandler_eq, He. reflexivity.
  - unfold exec in Hr. rewrite (RegisterProcessHandler_no_pool _ _ _ Hf) in Hr.
    discriminate.
Qed.

Lemma RegisterProcessHandler_round_trip_witness :
  exec (GetProcessHandler 4096%N (Some 7)) registered_map =
    Some ((STATUS_SUCCESS, Some 1), registered_map) /\
  exists pm2,
    exec (UnregisterProcess 4096%N) registered_map =
      Some (STATUS_SUCCESS, pm2) /\
    exec (GetProcessHandler 4096%N (Some 7)) pm2 =
      Some ((STATUS_NOT_FOUND, Some 7), pm2) /\
    pm2 = empty_map.
Proof.
  apply (RegisterProcessHandler_round_trip empty_map registered_map 4096%N
           true 1 7); reflexivity.
Defined.

(** C8. Removing a process that has no entry returns STATUS_NOT_FOUND and
    leaves the registry as it was; removing a process that has one, in a
    registry the operations have produced, succeeds, and removing it again
    at once returns STATUS_NOT_FOUND. *)
Theorem UnregisterProcess_absent_or_twice
    (pm : ProcessMap) (process : PEPROCESS) :
  (entry pm process = None ->
   exec (UnregisterProcess process) pm = Some (STATUS_NOT_FOUND, pm)) /\
  (reachable pm -> is_Some (entry pm process) ->
   exists pm1,
     exec (UnregisterProcess process) pm = Some (STATUS_SUCCESS, pm1) /\
     exec (UnregisterProcess process) pm1 = Some (STATUS_NOT_FOUND, pm1) /\
     S (length (m_table pm1)) = length (m_table pm)).
Proof.
  split.
  - intros He. apply entry_None in He. unfold exec.
    rewrite (UnregisterProcess_absent _ _ He). reflexivity.
  - intros Hr [info He]. apply reachable_ordered in Hr.
    apply entry_Some in He as (p & node & Hf & Hn & _).
    exists (with_table pm (delete p (m_table pm))). split; [| split].
    + unfold exec. rewrite (UnregisterProcess_present _ _ _ Hf). reflexivity.
    + pose proof (lookup_deleted (m_table pm)
                    {| Key := process; Value := zeroed |} Hr) as Hd.
      rewrite (delete_found _ _ _ Hf) in Hd. simpl in Hd.
      unfold exec. rewrite UnregisterProcess_absent by exact Hd.
      reflexivity.
    + simpl. rewrite length_delete by eauto.
      apply lookup_lt_Some in Hn. lia.
Qed.

Lemma registered_map_reachable : reachable registered_map.
Proof.
  exists empty_map, [OpRegisterProcessHandler true 4096%N 1]. reflexivity.
Qed.

Lemma UnregisterProcess_absent_or_twice_witness :
  exec (UnregisterProcess 4096%N) empty_map =
    Some (STATUS_NOT_FOUND, empty_map) /\
  exists pm1,
    exec (UnregisterProcess 4096%N) registered_map =
      Some (STATUS_SUCCESS, pm1) /\
    exec (UnregisterProcess 4096%N) pm1 = Some (STATUS_NOT_FOUND, pm1) /\
    S (length (m_table pm1)) = length (m_table registered_map).
Proof.
  split.
  - apply (proj1 (UnregisterProcess_absent_or_twice empty_map 4096%N)).
    reflexivity.
  - apply (proj2 (UnregisterProcess_absent_or_twice registered_map 4096%N)).
    + exact registered_map_reachable.
    + exists (with_Handler 1 zeroed). reflexivity.
Defined.

(** *** One entry per process *)

(** C6. After [Initialize] and any sequence of operations, which all run
    to their end, the table holds at most one element with a given key;
    and registering a key that is there returns STATUS_ALREADY_REGISTERED
    and leaves the registry as it was. *)
Theorem registry_one_entry_per_process
    (ops : list Operation) (pm0 : ProcessMap) (process : PEPROCESS) :
  exists pm,
    exec (Initialize ;;; perform_all ops) pm0 = Some (tt, pm) /\
    (entries_for process pm <= 1)%nat /\
    forall pool handler,
      (0 < entries_for process pm)%nat ->
      exec (RegisterProcessHandler pool process handler) pm =
        Some (STATUS_ALREADY_REGISTERED, pm).
Proof.
  destruct (run_from_Initialize ops pm0) as (pm & Hrun & Ho).
  exists pm. split; [exact Hrun |]. split.
  - apply ordered_unique. exact Ho.
  - intros pool handler Hpos.
    destruct (entries_for_present pm process Ho Hpos) as [p Hf].
    unfold exec. rewrite (RegisterProcessHandler_present _ _ _ _ _ Hf).
    reflexivity.
Qed.

Lemma registry_one_entry_per_process_witness :
  exists pm,
    exec (Initialize ;;;
          perform_all [OpRegisterProcessHandler true 4096%N 1;
                       OpRegisterProcessHandler true 4096%N 2;
                       OpSwitchProcessHandler true 8192%N 3;
                       OpUnregisterProcess 8192%N]) delegated_map =
      Some (tt, pm) /\
    (entries_for 4096%N pm <= 1)%nat /\
    exec (RegisterProcessHandler true 4096%N 9) pm =
      Some (STATUS_ALREADY_REGISTERED, pm).
Proof.
  destruct (registry_one_entry_per_process
              [OpRegisterProcessHandler true 4096%N 1;
               OpRegisterProcessHandler true 4096%N 2;
               OpSwitchProcessHandler true 8192%N 3;
               OpUnregisterProcess 8192%N] delegated_map 4096%N)
    as (pm & Hrun & Hle & Hreg).
  exists pm. split; [exact Hrun |]. split; [exact Hle |].
  apply Hreg.
  assert (Hc : exec (Initialize ;;;
                     perform_all [OpRegisterProcessHandler true 4096%N 1;
                                  OpRegisterProcessHandler true 4096%N 2;
                                  OpSwitchProcessHandler true 8192%N 3;
                                  OpUnregisterProcess 8192%N]) delegated_map
               = Some (tt, registered_map)) by reflexivity.
  rewrite Hc in Hrun. injection Hrun as <-. vm_compute. constructor.
Defined.

(** *** The lock *)

(** C5 as the design document states it fails: the handoff of an unknown
    process on a fresh registry looks the key up, inserts it and looks it
    up again without acquiring the mutex. *)
Lemma operations_do_not_hold_mutex :
  ~ (forall op pm l,
       public op = true ->
       calls (perform op) pm = Some l ->
       holds_mutex_throughout l = true).
Proof.
  intros H.
  specialize (H (OpSwitchProcessHandler true 4096%N 2) empty_map
                [KRtlLookupElementGenericTableAvl;
                 KRtlInsertElementGenericTableAvl; KExAllocatePoolZero;
                 KRtlLookupElementGenericTableAvl] eq_refl eq_refl).
  discriminate H.
Qed.

(** C5, amended. [Initialize] initialises the mutex of the registry, and
    no operation acquires or releases it: each runs to its end, on every
    path, without a call on the mutex and leaves the mutex as it found
    it. *)
Theorem operations_leave_mutex_alone (op : Operation) (pm : ProcessMap) :
  calls Initialize pm =
    Some [KRtlInitializeGenericTableAvl; KExInitializeFastMutex] /\
  exists pm' l,
    perform op pm = Some (tt, pm', l) /\
    leaves_mutex_alone l = true /\
    m_mutex pm' = m_mutex pm.
Proof.
  split; [reflexivity |].
  destruct (perform_spec op pm) as (pm' & l & Hp & Hm & Hl & _).
  exists pm', l. auto.
Qed.

(** ** Further properties of the registry *)

(** *** The comparison routine *)

(** X1. [_CompareRoutine] orders nodes by their keys alone: it answers
    GenericEqual exactly for equal keys, swapping the arguments swaps
    GenericLessThan and GenericGreaterThan, GenericLessThan is transitive,
    and the [Value] of the first node, which [UnregisterProcess] leaves
    unset, has no part in the answer. *)
Theorem CompareRoutine_total_order (a b c : _NODE) :
  (_CompareRoutine a b = GenericEqual <-> Key a = Key b) /\
  (_CompareRoutine a b = GenericLessThan <->
   _CompareRoutine b a = GenericGreaterThan) /\
  (_CompareRoutine a b = GenericLessThan ->
   _CompareRoutine b c = GenericLessThan ->
   _CompareRoutine a c = GenericLessThan) /\
  (forall v, _CompareRoutine {| Key := Key a; Value := v |} b =
             _CompareRoutine a b).
Proof.
  rewrite !CompareRoutine_key. repeat split.
  - destruct (N.compare_spec (Key a) (Key b)); congruence.
  - intros ->. rewrite N.compare_refl. reflexivity.
  - destruct (N.compare_spec (Key a) (Key b)); try discriminate.
    intros _. destruct (N.compare_spec (Key b) (Key a)); [lia | lia |].
    reflexivity.
  - destruct (N.compare_spec (Key b) (Key a)); try discriminate.
    intros _. destruct (N.compare_spec (Key a) (Key b)); [lia | | lia].
    reflexivity.
  - destruct (N.compare_spec (Key a) (Key b)); try discriminate.
    destruct (N.compare_spec (Key b) (Key c)); try discriminate.
    intros _ _. destruct (N.compare_spec (Key a) (Key c)); [lia | | lia].
    reflexivity.
  - intros v. rewrite !CompareRoutine_key. reflexivity.
Qed.

Lemma CompareRoutine_total_order_witness :
  _CompareRoutine {| Key := 1%N; Value := zeroed |}
                  {| Key := 3%N; Value := delegated 2 true 1 |} =
    GenericLessThan.
Proof.
  apply (proj1 (proj2 (proj2
           (CompareRoutine_total_order
              {| Key := 1%N; Value := zeroed |}
              {| Key := 2%N; Value := with_Handler 7 zeroed |}
              {| Key := 3%N; Value := delegated 2 true 1 |}))));
    reflexivity.
Defined.

(** *** Teardown *)

Lemma Clear_loop_calls (pm : ProcessMap) (t : list _NODE) (fuel : nat) :
  (length t < fuel)%nat ->
  Clear_loop fuel (with_table pm t) =
    Some (tt, with_table pm [],
          List.flat_map
            (fun _ => [KRtlEnumerateGenericTableAvl;
                       KRtlDeleteElementGenericTableAvl;
                       KExFreePoolWithTag]) t
          ++ [KRtlEnumerateGenericTableAvl]).
Proof.
  revert fuel. induction t as [| e t IH]; intros fuel Hlen.
  - destruct fuel as [| fuel]; [simpl in Hlen; lia | reflexivity].
  - destruct fuel as [| fuel]; [simpl in Hlen; lia |].
    specialize (IH fuel ltac:(simpl in Hlen; lia)).
    simpl. unfold Enumerate, Delete, _FreeRoutine. unfold_M. simpl.
    rewrite (CompareRoutine_refl e e eq_refl). simpl.
    unfold with_table in IH. simpl in IH. unfold with_table. simpl.
    rewrite IH. reflexivity.
Qed.

Lemma calls_to_app (c : KCALL) (l l' : list KCALL) :
  calls_to c (l ++ l') = (calls_to c l + calls_to c l')%nat.
Proof. unfold calls_to. rewrite List.filter_app, length_app. reflexivity. Qed.

Lemma calls_to_flat_map (c : KCALL) (turn : list KCALL) (t : list _NODE) :
  calls_to c (List.flat_map (fun _ => turn) t) =
    (length t * calls_to c turn)%nat.
Proof.
  induction t as [| e t IH]; [reflexivity |].
  cbn [List.flat_map]. rewrite calls_to_app, IH.
  change (length (e :: t)) with (S (length t)). lia.
Qed.

(** X2. [Clear] ends on every registry, whatever it holds: it leaves the
    table empty and the mutex as it was, gives every node back to the pool
    exactly once (one deletion and one [ExFreePoolWithTag] per element,
    no allocation), and afterwards no process is found. *)
Theorem Clear_releases_every_node (pm : ProcessMap) :
  exists pm' l,
    Clear pm = Some (tt, pm', l) /\
    m_table pm' = [] /\
    m_mutex pm' = m_mutex pm /\
    calls_to KRtlDeleteElementGenericTableAvl l = length (m_table pm) /\
    calls_to KExFreePoolWithTag l = length (m_table pm) /\
    calls_to KExAllocatePoolZero l = 0%nat /\
    forall process out,
      exec (GetProcessHandler process (Some out)) pm' =
        Some ((STATUS_NOT_FOUND, Some out), pm').
Proof.
  pose proof (Clear_loop_calls pm (m_table pm) (S (length (m_table pm)))
                ltac:(lia)) as Hl.
  rewrite with_table_id in Hl.
  eexists _, _. split.
  { unfold Clear, bind, get_table. rewrite Hl. reflexivity. }
  split; [reflexivity |]. split; [reflexivity |].
  rewrite !calls_to_app, !calls_to_flat_map.
  split; [unfold calls_to; simpl; lia |].
  split; [unfold calls_to; simpl; lia |].
  split; [unfold calls_to; simpl; lia |].
  intros process out. unfold exec. rewrite GetProcessHandler_eq.
  reflexivity.
Qed.

(** *** The queries *)

(** X3. [ProcessBelongsToHandler] agrees with [GetProcessHandler]: it
    answers TRUE exactly when the query succeeds and gives that handler;
    in particular it answers FALSE for a process that is not registered.
    Neither changes the registry. *)
Theorem ProcessBelongsToHandler_agrees
    (pm : ProcessMap) (process : PEPROCESS) (handler out : DWORD) :
  exists belongs status result,
    exec (ProcessBelongsToHandler process handler) pm = Some (belongs, pm) /\
    exec (GetProcessHandler process (Some out)) pm =
      Some ((status, result), pm) /\
    (belongs = true <-> status = STATUS_SUCCESS /\ result = Some handler) /\
    (entry pm process = None -> belongs = false).
Proof.
  unfold exec.
  rewrite ProcessBelongsToHandler_eq, GetProcessHandler_eq.
  destruct (entry pm process) as [info |].
  - eexists _, _, _. split; [reflexivity |]. split; [reflexivity |].
    split; [| discriminate]. rewrite Z.eqb_eq. split.
    + intros ->. split; reflexivity.
    + intros [_ H]. congruence.
  - eexists _, _, _. split; [reflexivity |]. split; [reflexivity |].
    split; [| reflexivity]. split; [discriminate |].
    intros [H _]. discriminate H.
Qed.

Lemma ProcessBelongsToHandler_agrees_witness :
  exists belongs status result,
    exec (ProcessBelongsToHandler 4096%N 2) delegated_map =
      Some (belongs, delegated_map) /\
    exec (GetProcessHandler 4096%N (Some 0)) delegated_map =
      Some ((status, result), delegated_map) /\
    (belongs = true <-> status = STATUS_SUCCESS /\ result = Some 2) /\
    (entry delegated_map 4096%N = None -> belongs = false).
Proof.
  exact (ProcessBelongsToHandler_agrees delegated_map 4096%N 2 0).
Defined.

(** X4. The two overloads of [GetProcessHandler] agree.  With a NULL
    output pointer each returns STATUS_INVALID_PARAMETER without looking
    the process up.  Otherwise they return the same status, on success the
    handler given by the first is the [Handler] of the entry given by the
    second, and on STATUS_NOT_FOUND the caller's variable keeps its
    value.  The registry is never changed. *)
Theorem GetProcessHandler_overloads
    (pm : ProcessMap) (process : PEPROCESS) (out : DWORD)
    (outInformation : PROCESS_HANDLER_INFORMATION) :
  GetProcessHandler process None pm =
    Some ((STATUS_INVALID_PARAMETER, None), pm, []) /\
  GetProcessHandlerInformation process None pm =
    Some ((STATUS_INVALID_PARAMETER, None), pm, []) /\
  exists status handler information,
    exec (GetProcessHandler process (Some out)) pm =
      Some ((status, Some handler), pm) /\
    exec (GetProcessHandlerInformation process (Some outInformation)) pm =
      Some ((status, Some information), pm) /\
    (status = STATUS_SUCCESS /\ handler = Handler information /\
     entry pm process = Some information
     \/
     status = STATUS_NOT_FOUND /\ handler = out /\
     information = outInformation /\ entry pm process = None).
Proof.
  split; [reflexivity |]. split; [reflexivity |].
  unfold exec.
  rewrite GetProcessHandler_eq, GetProcessHandlerInformation_eq.
  destruct (entry pm process) as [info |].
  - eexists _, _, _. split; [reflexivity |]. split; [reflexivity |].
    left. repeat split.
  - eexists _, _, _. split; [reflexivity |]. split; [reflexivity |].
    right. repeat split.
Qed.

(** *** Other processes *)

Lemma entry_element (pm : ProcessMap) (process : PEPROCESS) :
  entry pm process = Value <$> element (m_table pm) process.
Proof.
  unfold entry, element. destruct (find _ _); reflexivity.
Qed.

Lemma element_cons (e : _NODE) (t : list _NODE) (process : PEPROCESS) :
  element (e :: t) process =
    match (process ?= Key e)%N with
    | Eq => Some e
    | Lt => None
    | Gt => element t process
    end.
Proof.
  unfold element, find. simpl. rewrite CompareRoutine_key. simpl.
  destruct (process ?= Key e)%N; try reflexivity.
  destruct (lookup_ t _); reflexivity.
Qed.

Lemma element_above (t : list _NODE) (process : PEPROCESS) :
  Forall (fun x => (process < Key x)%N) t -> element t process = None.
Proof.
  intros Hf. unfold element, find.
  rewrite (lookup_above t {| Key := process; Value := zeroed |} Hf).
  reflexivity.
Qed.

Lemma element_insert_other (a : bool) (t : list _NODE) (b : _NODE)
    (process : PEPROCESS) :
  Key b <> process ->
  element (insert_ a t b).1.1 process = element t process.
Proof.
  intros Hne. induction t as [| e t IH]; simpl.
  - destruct a; simpl; [| reflexivity]. rewrite element_cons.
    destruct (N.compare_spec process (Key b)); [congruence | |]; reflexivity.
  - destruct (_CompareRoutine b e) eqn:Hc; simpl; try reflexivity.
    + apply CompareRoutine_Less in Hc.
      destruct a; simpl; [| reflexivity].
      rewrite (element_cons b). 
      destruct (N.compare_spec process (Key b)); [congruence | | reflexivity].
      rewrite element_cons.
      destruct (N.compare_spec process (Key e)); [lia | reflexivity | lia].
    + destruct (insert_ a t b) as [[t' p] n]. simpl in *.
      rewrite !element_cons, IH. reflexivity.
Qed.

Lemma element_delete_other (t : list _NODE) (b : _NODE)
    (process : PEPROCESS) :
  ordered t -> Key b <> process ->
  element (delete_ t b).1 process = element t process.
Proof.
  intros Ho Hne. induction t as [| e t IH]; simpl; [reflexivity |].
  apply ordered_cons in Ho as [Ho Hf].
  destruct (_CompareRoutine b e) eqn:Hc; simpl; try reflexivity.
  - specialize (IH Ho). destruct (delete_ t b) as [t' f]. simpl in *.
    rewrite !element_cons, IH. reflexivity.
  - apply CompareRoutine_Equal in Hc. rewrite element_cons.
    destruct (N.compare_spec process (Key e)); [congruence | | reflexivity].
    apply element_above. eapply Forall_impl; [exact Hf |].
    simpl. intros x Hx. lia.
Qed.

Lemma element_store_other (t : list _NODE) (p : nat) (node : _NODE)
    (v : PROCESS_HANDLER_INFORMATION) (process : PEPROCESS) :
  t !! p = Some node -> Key node <> process ->
  element (<[p := {| Key := Key node; Value := v |}]> t) process =
    element t process.
Proof.
  intros Hn Hne. unfold element, find.
  rewrite (lookup_store t _ p node v Hn).
  destruct (lookup_ t _) as [q |] eqn:Hq; [| reflexivity]. simpl.
  destruct (lookup_Some _ _ _ Hq) as (e & He & Hk). simpl in Hk.
  apply list_lookup_insert_ne. intros <-. congruence.
Qed.

(** X5. An operation about one process does not touch the entry of
    another: in a registry the operations have produced, after any
    operation on [process] the entry of every other process [other] is
    what it was (present with the same four members, or absent). *)
Theorem other_entries_untouched
    (pm pm' : ProcessMap) (op : Operation) (process other : PEPROCESS) :
  reachable pm ->
  process_of op = Some process ->
  process <> other ->
  exec (perform op) pm = Some (tt, pm') ->
  entry pm' other = entry pm other.
Proof.
  intros Hr Hop Hne Hrun. apply reachable_ordered in Hr.
  rewrite !entry_element. f_equal.
  unfold exec in Hrun.
  destruct op as [p0 | p0 handler | p0 [out |] | p0 [out |]
                 | pool p0 handler | pool p0 newHandler | p0 |];
    simpl in Hop; try discriminate; injection Hop as ->;
    cbn [perform] in Hrun.
  - erewrite then_ret in Hrun by apply operator_index_eq.
    simpl in Hrun. congruence.
  - erewrite then_ret in Hrun by apply ProcessBelongsToHandler_eq.
    simpl in Hrun. congruence.
  - erewrite then_ret in Hrun by apply GetProcessHandler_eq.
    simpl in Hrun. congruence.
  - erewrite then_ret in Hrun by reflexivity. simpl in Hrun. congruence.
  - erewrite then_ret in Hrun by apply GetProcessHandlerInformation_eq.
    simpl in Hrun. congruence.
  - erewrite then_ret in Hrun by reflexivity. simpl in Hrun. congruence.
  - destruct (find (m_table pm) process) as [p |] eqn:Hf.
    + erewrite then_ret in Hrun
        by apply (RegisterProcessHandler_present _ _ _ _ _ Hf).
      simpl in Hrun. congruence.
    + destruct pool.
      * destruct (RegisterProcessHandler_fresh process handler pm Hf)
          as (t' & p & Hreg & _ & _ & _ & Ht').
        erewrite then_ret in Hrun by exact Hreg.
        simpl in Hrun. injection Hrun as <-. simpl. rewrite Ht'.
        apply element_insert_other. exact Hne.
      * erewrite then_ret in Hrun
          by apply (RegisterProcessHandler_no_pool _ _ _ Hf).
        simpl in Hrun. congruence.
  - destruct (find (m_table pm) process) as [p |] eqn:Hf.
    + destruct (load_found _ _ _ Hf) as (node & Hn & Hk & _).
      pose proof (SwitchProcessHandler_present pool process newHandler
                    pm p node Hf Hn) as Hs.
      destruct (HasParentHandler (Value node)).
      * erewrite then_ret in Hrun by exact Hs. simpl in Hrun. congruence.
      * erewrite then_ret in Hrun by exact Hs.
        simpl in Hrun. injection Hrun as <-. simpl.
        apply element_store_other; congruence.
    + destruct pool.
      * destruct (SwitchProcessHandler_fresh process newHandler pm Hf)
          as (t' & p & Ht' & _ & Hn & Hs).
        erewrite then_ret in Hrun by exact Hs.
        simpl in Hrun. injection Hrun as <-. simpl.
        rewrite (element_store_other t' p _ _ other Hn) by exact Hne.
        rewrite Ht'. apply element_insert_other. exact Hne.
      * erewrite then_ret in Hrun
          by apply (SwitchProcessHandler_no_pool _ _ _ Hf).
        simpl in Hrun. congruence.
  - destruct (find (m_table pm) process) as [p |] eqn:Hf.
    + erewrite then_ret in Hrun
        by apply (UnregisterProcess_present _ _ _ Hf).
      simpl in Hrun. injection Hrun as <-. simpl.
      pose proof (element_delete_other (m_table pm)
                    {| Key := process; Value := zeroed |} other Hr Hne)
        as Hd.
      rewrite (delete_found _ _ _ Hf) in Hd. exact Hd.
    + erewrite then_ret in Hrun
        by apply (UnregisterProcess_absent _ _ Hf).
      simpl in Hrun. congruence.
Qed.

Lemma two_process_map_reachable : reachable two_process_map.
Proof.
  exists empty_map, [OpRegisterProcessHandler true 8192%N 5;
                     OpRegisterProcessHandler true 4096%N 1].
  reflexivity.
Qed.

Lemma other_entries_untouched_witness :
  entry (with_table two_process_map
           [{| Key := 4096%N; Value := delegated 2 true 1 |};
            {| Key := 8192%N; Value := with_Handler 5 zeroed |}]) 8192%N =
    entry two_process_map 8192%N.
Proof.
  apply (other_entries_untouched two_process_map _
           (OpSwitchProcessHandler true 4096%N 2) 4096%N 8192%N).
  - exact two_process_map_reachable.
  - reflexivity.
  - discriminate.
  - reflexivity.
Defined.

(** *** Outcomes of the operations that change the registry *)

(** X6. [RegisterProcessHandler] has three outcomes, decided by the
    registry and the pool.  A registered process gives
    STATUS_ALREADY_REGISTERED and an exhausted pool
    STATUS_INSUFFICIENT_RESOURCES, both with the registry unchanged;
    otherwise the status is STATUS_SUCCESS, the registry has one element
    more, and the new entry has the handler asked for, no parent and both
    flags clear. *)
Theorem RegisterProcessHandler_outcomes
    (pm : ProcessMap) (process : PEPROCESS) (handler : DWORD) (pool : bool) :
  exists status pm',
    exec (RegisterProcessHandler pool process handler) pm =
      Some (status, pm') /\
    match entry pm process with
    | Some _ => status = STATUS_ALREADY_REGISTERED /\ pm' = pm
    | None =>
        if pool then
          status = STATUS_SUCCESS /\
          entry pm' process =
            Some {| Handler := handler; HasParentHandler := false;
                    HasInternalParentHandler := false;
                    ParentHandler := 0 |} /\
          length (m_table pm') = S (length (m_table pm)) /\
          m_mutex pm' = m_mutex pm
        else status = STATUS_INSUFFICIENT_RESOURCES /\ pm' = pm
    end.
Proof.
  unfold exec. destruct (entry pm process) as [info |] eqn:He.
  - apply entry_Some in He as (p & node & Hf & _).
    rewrite (RegisterProcessHandler_present _ _ _ _ _ Hf).
    eexists _, _. split; [reflexivity |]. split; reflexivity.
  - apply entry_None in He. destruct pool.
    + destruct (RegisterProcessHandler_fresh process handler pm He)
        as (t' & p & Hr & Hf' & Hn & _ & Ht').
      rewrite Hr. eexists _, _. split; [reflexivity |].
      split; [reflexivity |]. split; [| split; [| reflexivity]].
      * apply entry_Some. eexists p, _. simpl.
        split; [exact Hf' | split; [exact Hn | reflexivity]].
      * simpl. rewrite Ht'.
        destruct (insert_fresh (m_table pm)
                    {| Key := process; Value := with_Handler handler zeroed |})
          as (t'' & q & Hi & _ & _ & _ & Hlen).
        { rewrite lookup_find. exact He. }
        rewrite Hi. exact Hlen.
    + rewrite (RegisterProcessHandler_no_pool _ _ _ He).
      eexists _, _. split; [reflexivity |]. split; reflexivity.
Qed.

(** X7. [SwitchProcessHandler] either succeeds or changes nothing.  Its
    only failures are STATUS_NOT_IMPLEMENTED and
    STATUS_INSUFFICIENT_RESOURCES, and both leave the registry as it was.
    On success the entry has the new handler and [HasParentHandler] set;
    [HasInternalParentHandler] tells whether the process had an entry
    before the call, and the parent is the handler of that entry, or
    [(DWORD)-1] when there was none. *)
Theorem SwitchProcessHandler_outcomes
    (pm : ProcessMap) (process : PEPROCESS) (newHandler : DWORD)
    (pool : bool) :
  exists status pm',
    exec (SwitchProcessHandler pool process newHandler) pm =
      Some (status, pm') /\
    (status = STATUS_SUCCESS /\
     entry pm' process =
       Some {| Handler := newHandler; HasParentHandler := true;
               HasInternalParentHandler := not_NULL (entry pm process);
               ParentHandler :=
                 from_option Handler (DWORD_cast (-1)) (entry pm process) |}
     \/
     (status = STATUS_NOT_IMPLEMENTED \/
      status = STATUS_INSUFFICIENT_RESOURCES) /\ pm' = pm).
Proof.
  unfold exec. destruct (entry pm process) as [info |] eqn:He.
  - destruct (HasParentHandler info) eqn:Hp.
    + rewrite (Switch_delegated pm process pool newHandler info He Hp).
      eexists _, _. split; [reflexivity |]. right. auto.
    + destruct (Switch_registered pm process pool newHandler info He Hp)
        as (pm' & Hs & He').
      rewrite Hs. eexists _, _. split; [reflexivity |]. left.
      split; [reflexivity | exact He'].
  - destruct pool.
    + destruct (Switch_unregistered pm process newHandler He)
        as (pm' & Hs & He').
      rewrite Hs. eexists _, _. split; [reflexivity |]. left.
      split; [reflexivity | exact He'].
    + apply entry_None in He.
      rewrite (SwitchProcessHandler_no_pool _ _ _ He).
      eexists _, _. split; [reflexivity |]. right. auto.
Qed.

(** X8. The single handoff is a property of the entry, not of the
    process: in a registry the operations have produced, a process with an
    entry, handed off or not, can be unregistered, registered again (the
    pool serving the node) and then handed off once more, the new entry
    starting with no parent. *)
Theorem unregister_resets_handoff
    (pm : ProcessMap) (process : PEPROCESS) (pool : bool)
    (handler newHandler : DWORD) (info : PROCESS_HANDLER_INFORMATION) :
  reachable pm ->
  entry pm process = Some info ->
  exists pm1 pm2 pm3,
    exec (UnregisterProcess process) pm = Some (STATUS_SUCCESS, pm1) /\
    entry pm1 process = None /\
    exec (RegisterProcessHandler true process handler) pm1 =
      Some (STATUS_SUCCESS, pm2) /\
    entry pm2 process =
      Some {| Handler := handler; HasParentHandler := false;
              HasInternalParentHandler := false; ParentHandler := 0 |} /\
    exec (SwitchProcessHandler pool process newHandler) pm2 =
      Some (STATUS_SUCCESS, pm3) /\
    entry pm3 process =
      Some {| Handler := newHandler; HasParentHandler := true;
              HasInternalParentHandler := true; ParentHandler := handler |}.
Proof.
  intros Hr He. apply reachable_ordered in Hr.
  apply entry_Some in He as (p & node & Hf & _).
  set (pm1 := with_table pm (delete p (m_table pm))).
  assert (Hf1 : find (m_table pm1) process = None).
  { pose proof (lookup_deleted (m_table pm)
                  {| Key := process; Value := zeroed |} Hr) as Hd.
    rewrite (delete_found _ _ _ Hf) in Hd. exact Hd. }
  destruct (RegisterProcessHandler_fresh process handler pm1 Hf1)
    as (t' & q & Hreg & Hf' & Hn & _).
  assert (He2 : entry (with_table pm1 t') process =
                Some (with_Handler handler zeroed)).
  { apply entry_Some. eexists q, _. simpl.
    split; [exact Hf' | split; [exact Hn | reflexivity]]. }
  destruct (Switch_registered (with_table pm1 t') process pool newHandler
              _ He2 eq_refl) as (pm3 & Hs & He3).
  exists pm1, (with_table pm1 t'), pm3. unfold exec.
  rewrite (UnregisterProcess_present _ _ _ Hf), Hreg, Hs.
  repeat split; try assumption. apply entry_None. exact Hf1.
Qed.

Lemma unregister_resets_handoff_witness :
  exists pm1 pm2 pm3,
    exec (UnregisterProcess 4096%N) delegated_map =
      Some (STATUS_SUCCESS, pm1) /\
    entry pm1 4096%N = None /\
    exec (RegisterProcessHandler true 4096%N 7) pm1 =
      Some (STATUS_SUCCESS, pm2) /\
    entry pm2 4096%N =
      Some {| Handler := 7; HasParentHandler := false;
              HasInternalParentHandler := false; ParentHandler := 0 |} /\
    exec (SwitchProcessHandler false 4096%N 9) pm2 =
      Some (STATUS_SUCCESS, pm3) /\
    entry pm3 4096%N =
      Some {| Handler := 9; HasParentHandler := true;
              HasInternalParentHandler := true; ParentHandler := 7 |}.
Proof.
  apply (unregister_resets_handoff delegated_map 4096%N false 7 9
           (delegated 2 true 1)).
  - exists empty_map, [OpRegisterProcessHandler true 4096%N 1;
                       OpSwitchProcessHandler false 4096%N 2].
    reflexivity.
  - reflexivity.
Defined.

End ProcessMapFacts.

(** ** Properties of the loader *)

Module LoaderFacts.
Import Loader.

Lemma int_cast_range (z : Z) : - 2 ^ 31 <= int_cast z < 2 ^ 31.
Proof.
  unfold int_cast.
  pose proof (Z.mod_pos_bound (z + 2 ^ 31) (2 ^ 32) eq_refl). lia.
Qed.

Lemma quot_10_bound (s : Z) (k : nat) :
  Z.abs s < 10 ^ Z.of_nat (S k) -> Z.abs (Z.quot s 10) < 10 ^ Z.of_nat k.
Proof.
  intros H. rewrite <- (Z.quot_abs s 10) by lia.
  change (Z.abs 10) with 10.
  rewrite Z.quot_div_nonneg by lia.
  apply Z.div_lt_upper_bound; [lia |].
  rewrite Nat2Z.inj_succ, Z.pow_succ_r in H by lia. exact H.
Qed.

(** The loop ends before the array does: a number below [10 ^ (k + 1)]
    takes at most [k + 1] turns. *)
Lemma LinuxFail_loop_ends (k room : nat) (statusString : list ascii)
    (length : nat) (status : Z) :
  (k <= room)%nat ->
  Z.abs status < 10 ^ Z.of_nat (S k) ->
  exists statusString' length',
    LinuxFail_loop (S room) statusString length status =
      Some (statusString', length', 0) /\
    (length' <= length + S k)%nat.
Proof.
  revert room statusString length status.
  induction k as [| k IH]; intros room buf len s Hk Hs.
  - apply quot_10_bound in Hs. simpl in Hs.
    assert (Hq : Z.quot s 10 = 0) by lia.
    simpl. rewrite Hq. simpl. eexists _, _. split; [reflexivity | lia].
  - apply quot_10_bound in Hs.
    destruct room as [| room]; [lia |].
    cbn [LinuxFail_loop].
    destruct (Z.eqb_spec (Z.quot s 10) 0) as [Hq | Hq].
    + rewrite Hq. eexists _, _. split; [reflexivity | lia].
    + destruct (IH room
                  (<[len := char_cast (Z.rem s 10 + char_value "0")]> buf)
                  (S len) (Z.quot s 10)) as (buf' & len' & Hl & Hlen);
        [lia | exact Hs |].
      exists buf', len'. split; [exact Hl | lia].
Qed.

(** What the loop stores, for a number that is not negative: the digit of
    weight [10 ^ i] at offset [i] from where it starts, so the least
    significant digit comes first. *)
Lemma LinuxFail_loop_digits (k room : nat) (statusString : list ascii)
    (length : nat) (status : Z) :
  (k <= room)%nat ->
  0 <= status < 10 ^ Z.of_nat (S k) ->
  (length + S room <= List.length statusString)%nat ->
  exists statusString' length',
    LinuxFail_loop (S room) statusString length status =
      Some (statusString', length', 0) /\
    (length < length' <= length + S k)%nat /\
    (forall i : nat, (length + i < length')%nat ->
       statusString' !! (length + i)%nat =
         Some (char_cast ((status / 10 ^ Z.of_nat i) mod 10
                          + char_value "0"))) /\
    (forall j : nat, (j < length)%nat ->
       statusString' !! j = statusString !! j) /\
    List.length statusString' = List.length statusString.
Proof.
  revert room statusString length status.
  induction k as [| k IH]; intros room buf len s Hk Hs Hroom.
  - assert (Hq : Z.quot s 10 = 0).
    { rewrite Z.quot_div_nonneg by lia. apply Z.div_small.
      change (10 ^ Z.of_nat 1) with 10 in Hs. lia. }
    cbn [LinuxFail_loop]. rewrite Hq. cbn [Z.eqb].
    eexists _, _. split; [reflexivity |]. split; [lia |].
    split; [| split].
    + intros i Hi. assert (i = 0%nat) as -> by lia.
      rewrite Nat.add_0_r, list_lookup_insert_eq by lia.
      rewrite Z.rem_mod_nonneg by lia.
      change (10 ^ Z.of_nat 0) with 1. rewrite Z.div_1_r. reflexivity.
    + intros j Hj. apply list_lookup_insert_ne. lia.
    + apply length_insert.
  - destruct room as [| room]; [lia |].
    cbn [LinuxFail_loop].
    assert (Hq : Z.quot s 10 = s / 10) by (apply Z.quot_div_nonneg; lia).
    assert (Hd0 : <[len := char_cast (Z.rem s 10 + char_value "0")]> buf
                    !! (len + 0)%nat =
                  Some (char_cast ((s / 10 ^ Z.of_nat 0) mod 10
                                   + char_value "0"))).
    { rewrite Nat.add_0_r, list_lookup_insert_eq by lia.
      rewrite Z.rem_mod_nonneg by lia.
      change (10 ^ Z.of_nat 0) with 1. rewrite Z.div_1_r. reflexivity. }
    destruct (Z.eqb_spec (Z.quot s 10) 0) as [Hz | Hz].
    + rewrite Hz. eexists _, _. split; [reflexivity |]. split; [lia |].
      split; [| split].
      * intros i Hi. assert (i = 0%nat) as -> by lia. exact Hd0.
      * intros j Hj. apply list_lookup_insert_ne. lia.
      * apply length_insert.
    + destruct (IH room
                  (<[len := char_cast (Z.rem s 10 + char_value "0")]> buf)
                  (S len) (Z.quot s 10))
        as (buf' & len' & Hl & Hlen & Hdig & Hkeep & Hsize).
      * lia.
      * rewrite Hq. split; [apply Z.div_pos; lia |].
        apply Z.div_lt_upper_bound; [lia |].
        rewrite (Nat2Z.inj_succ (S k)), Z.pow_succ_r in Hs by lia. lia.
      * rewrite length_insert. lia.
      * exists buf', len'. split; [exact Hl |]. split; [lia |].
        split; [| split].
        -- intros [| i] Hi.
           ++ rewrite Nat.add_0_r. rewrite Hkeep by lia.
              rewrite Nat.add_0_r in Hd0. exact Hd0.
           ++ replace (len + S i)%nat with (S len + i)%nat by lia.
              rewrite Hdig by lia. rewrite Hq.
              rewrite Z.div_div by lia.
              rewrite Nat2Z.inj_succ, Z.pow_succ_r by lia. reflexivity.
        -- intros j Hj. rewrite Hkeep by lia.
           apply list_lookup_insert_ne. lia.
        -- rewrite Hsize. apply length_insert.
Qed.

(** [LinuxFail] makes its three system calls whatever the status is. *)
Lemma LinuxFail_calls (message : list ascii) (messageSize status : Z) :
  exists statusString length,
    (length <= 13)%nat /\
    LinuxFail message messageSize status =
      LinuxSyscall SYS_write [Int 2; Ptr message; Int messageSize]
        (fun _ =>
      LinuxSyscall SYS_write
        [Int 2; Ptr statusString; Int (Z.of_nat length)] (fun _ =>
      LinuxSyscall SYS_exit [Int 0] (fun _ =>
      Undefined))).
Proof.
  unfold LinuxFail.
  destruct (LinuxFail_loop_ends 9 29 (lit ": " ++ replicate 30 NUL) 2
              (int_cast (- status))) as (buf & len & Hl & Hlen); [lia | |].
  { pose proof (int_cast_range (- status)). change (Z.of_nat 10) with 10.
    lia. }
  rewrite Hl.
  destruct (Nat.ltb_spec len 32) as [_ | Hge]; [| lia].
  eexists _, (S len). split; [lia | reflexivity].
Qed.

Lemma run_LinuxFail (message : list ascii) (messageSize status : Z)
    (r1 r2 : Z) (answers : list Z) :
  exists statusString length,
    run (LinuxFail message messageSize status) (r1 :: r2 :: answers) =
      ([(SYS_write, [Int 2; Ptr message; Int messageSize]);
        (SYS_write, [Int 2; Ptr statusString; Int length]);
        (SYS_exit, [Int 0])], Exited (Some 0)).
Proof.
  destruct (LinuxFail_calls message messageSize status)
    as (buf & len & _ & ->).
  eexists _, _. reflexivity.
Qed.

(** C4: evaluation at the status -13 (EACCES) of a failed [open].  The
    message goes to descriptor 2, then a line with the digits of 13 in the
    order the loop produces them, least significant first, and the process
    exits; the line is not the decimal numeral of 13. *)
Theorem LinuxFail_digits_reversed (r1 r2 : Z) (answers : list Z) :
  let m := "Cannot open the reality device"%string in
  let out := run (LinuxFail (lit m) (sizeof m - 1) (-13))
               (r1 :: r2 :: answers) in
  written <$> out.1 =
    [Some (2, m); Some (2, (": 31" ++ LF)%string); None] /\
  out.2 = Exited (Some 0) /\
  (": 31" ++ LF)%string <> (": " ++ decimal 13 ++ LF)%string.
Proof.
  cbv zeta. split; [reflexivity |]. split; [reflexivity |].
  vm_compute. discriminate.
Qed.

(** *** The creation of the device *)

Lemma run_returns (n : number) (args : list arg) (k : Z -> Program)
    (r : Z) (answers : list Z) :
  is_exit n = false ->
  run (LinuxSyscall n args k) (r :: answers) =
    ((n, args) :: (run (k r) answers).1, (run (k r) answers).2).
Proof.
  intros H. simpl. rewrite H. destruct (run (k r) answers). reflexivity.
Qed.

Lemma run_first (n : number) (args : list arg) (k : Z -> Program)
    (answers : list Z) :
  (run (LinuxSyscall n args k) answers).1 !! 0%nat = Some (n, args).
Proof.
  simpl. destruct (is_exit n); [reflexivity |].
  destruct answers as [| r answers]; [reflexivity |].
  destruct (run (k r) answers). reflexivity.
Qed.

Section Bootstrap.
Variable MA_NAME_MAX : nat.
Variable MA_REALITY_MINOR : Z.
Variable MA_IOCTL_SET_PROVIDER : Z.

Local Abbreviation start :=
  (_start MA_NAME_MAX MA_REALITY_MINOR MA_IOCTL_SET_PROVIDER).

(** C9. Once the greeting is written, the second call creates
    /dev/reality as a character device that owner, group and others may
    read and nobody may write or execute.  If the call returns -EEXIST (or
    does not fail) the next call opens the device; for any other negative
    status the loader writes "Cannot create the reality device" and the
    status line to descriptor 2 and exits. *)
Theorem start_creates_device
    (r0 r1 : Z) (answers : list Z) :
  0 <= int_cast r0 ->
  let status := int_cast r1 in
  (exists mode dev,
     (run start (r0 :: r1 :: answers)).1 !! 1%nat =
       Some (SYS_mknod, [Ptr (lit "/dev/reality"); Int mode; Int dev]) /\
     Z.land mode S_IFMT = S_IFCHR /\
     Z.land mode (Z.lor (Z.lor S_IRUSR S_IRGRP) S_IROTH) =
       Z.lor (Z.lor S_IRUSR S_IRGRP) S_IROTH /\
     Z.land mode (Z.lor (Z.lor S_IWUSR S_IWGRP) S_IWOTH) = 0 /\
     Z.land mode (Z.lor (Z.lor S_IXUSR S_IXGRP) S_IXOTH) = 0) /\
  (status = - EEXIST \/ 0 <= status ->
   (run start (r0 :: r1 :: answers)).1 !! 2%nat =
     Some (SYS_open, [Ptr (lit "/dev/reality"); Int O_RDONLY])) /\
  (status < 0 -> status <> - EEXIST ->
   forall r2 r3, exists statusString length,
     drop 2 (run start (r0 :: r1 :: r2 :: r3 :: answers)).1 =
       [(SYS_write,
         [Int 2; Ptr (lit "Cannot create the reality device"); Int 32]);
        (SYS_write, [Int 2; Ptr statusString; Int length]);
        (SYS_exit, [Int 0])] /\
     (run start (r0 :: r1 :: r2 :: r3 :: answers)).2 = Exited (Some 0)).
Proof.
  intros Hr0 status.
  assert (H0 : (int_cast r0 <? 0) = false) by (apply Z.ltb_ge; exact Hr0).
  split; [| split].
  - eexists _, _. split.
    + unfold _start. rewrite run_returns by reflexivity.
      cbv beta zeta. rewrite H0. rewrite run_returns by reflexivity.
      reflexivity.
    + repeat split.
  - intros Hs.
    assert (H1 : (status <? 0) && negb (status =? - EEXIST) = false).
    { destruct Hs as [-> | Hs]; [reflexivity |].
      apply andb_false_iff. left. apply Z.ltb_ge. exact Hs. }
    unfold _start. rewrite run_returns by reflexivity.
    cbv beta zeta. rewrite H0. rewrite run_returns by reflexivity.
    cbv beta zeta. fold status. rewrite H1.
    cbn [fst lookup list_lookup]. apply run_first.
  - intros Hneg Hne r2 r3.
    assert (H1 : (status <? 0) && negb (status =? - EEXIST) = true).
    { apply andb_true_iff. split; [apply Z.ltb_lt; exact Hneg |].
      apply negb_true_iff. apply Z.eqb_neq. exact Hne. }
    destruct (run_LinuxFail (lit "Cannot create the reality device")
                32 status r2 r3 answers) as (buf & len & Hrun).
    exists buf, len.
    unfold _start. rewrite run_returns by reflexivity.
    cbv beta zeta. rewrite H0. rewrite run_returns by reflexivity.
    cbv beta zeta. fold status. rewrite H1.
    change (sizeof "Cannot create the reality device" - 1) with 32.
    rewrite Hrun. split; reflexivity.
Qed.

End Bootstrap.

Lemma start_creates_device_witness :
  (run (_start 16 0 0) [49; -17; 3]).1 !! 2%nat =
    Some (SYS_open, [Ptr (lit "/dev/reality"); Int O_RDONLY]) /\
  exists statusString length,
    drop 2 (run (_start 16 0 0) [49; -13; 5; 5]).1 =
      [(SYS_write,
        [Int 2; Ptr (lit "Cannot create the reality device"); Int 32]);
       (SYS_write, [Int 2; Ptr statusString; Int length]);
       (SYS_exit, [Int 0])] /\
    (run (_start 16 0 0) [49; -13; 5; 5]).2 = Exited (Some 0).
Proof.
  assert (H49 : 0 <= int_cast 49) by (vm_compute; discriminate).
  split.
  - apply (proj1 (proj2 (start_creates_device 16 0 0 49 (-17) [3] H49))).
    left. reflexivity.
  - apply (proj2 (proj2 (start_creates_device 16 0 0 49 (-13) [] H49))).
    + reflexivity.
    + vm_compute. discriminate.
Defined.

(** ** Further properties of the loader *)

(** *** The status line of [LinuxFail] *)

Lemma int_cast_id (z : Z) : - 2 ^ 31 <= z < 2 ^ 31 -> int_cast z = z.
Proof.
  intros H. unfold int_cast. rewrite Z.mod_small by lia. lia.
Qed.

Lemma char_value_cast (z : Z) :
  0 <= z < 256 -> char_value (char_cast z) = z.
Proof.
  intros H. unfold char_value, char_cast.
  rewrite Z.mod_small by exact H.
  rewrite N_ascii_embedding by lia. lia.
Qed.

(** The loop keeps what is before [length] and the size of the array,
    whatever the sign of the number. *)
Lemma LinuxFail_loop_frame (k room : nat) (statusString : list ascii)
    (length : nat) (status : Z) :
  (k <= room)%nat ->
  Z.abs status < 10 ^ Z.of_nat (S k) ->
  exists statusString' length',
    LinuxFail_loop (S room) statusString length status =
      Some (statusString', length', 0) /\
    (length < length' <= length + S k)%nat /\
    (forall j : nat, (j < length)%nat ->
       statusString' !! j = statusString !! j) /\
    List.length statusString' = List.length statusString.
Proof.
  revert room statusString length status.
  induction k as [| k IH]; intros room buf len s Hk Hs.
  - apply quot_10_bound in Hs. simpl in Hs.
    assert (Hq : Z.quot s 10 = 0) by lia.
    cbn [LinuxFail_loop]. rewrite Hq. cbn [Z.eqb].
    eexists _, _. split; [reflexivity |]. split; [lia |].
    split; [| apply length_insert].
    intros j Hj. apply list_lookup_insert_ne. lia.
  - apply quot_10_bound in Hs.
    destruct room as [| room]; [lia |].
    cbn [LinuxFail_loop].
    destruct (Z.eqb_spec (Z.quot s 10) 0) as [Hq | Hq].
    + rewrite Hq. eexists _, _. split; [reflexivity |]. split; [lia |].
      split; [| apply length_insert].
      intros j Hj. apply list_lookup_insert_ne. lia.
    + destruct (IH room
                  (<[len := char_cast (Z.rem s 10 + char_value "0")]> buf)
                  (S len) (Z.quot s 10))
        as (buf' & len' & Hl & Hlen & Hkeep & Hsize); [lia | exact Hs |].
      exists buf', len'. split; [exact Hl |]. split; [lia |].
      split.
      * intros j Hj. rewrite Hkeep by lia.
        apply list_lookup_insert_ne. lia.
      * rewrite Hsize. apply length_insert.
Qed.

(** X9. [LinuxFail] stays inside [statusString] for every [int] status
    but the least one (whose negation overflows), negative or not: it
    makes its three system calls, the second with the 32-byte array and a
    length between 4 and 13 that starts with ": " and ends with the
    newline, and the status it gives to [SYS_exit] is 0, the value the
    loop leaves. *)
Theorem LinuxFail_within_statusString
    (message : list ascii) (messageSize status r1 r2 : Z)
    (answers : list Z) :
  - 2 ^ 31 < status < 2 ^ 31 ->
  exists statusString length,
    run (LinuxFail message messageSize status) (r1 :: r2 :: answers) =
      ([(SYS_write, [Int 2; Ptr message; Int messageSize]);
        (SYS_write, [Int 2; Ptr statusString; Int (Z.of_nat length)]);
        (SYS_exit, [Int 0])], Exited (Some 0)) /\
    List.length statusString = 32%nat /\
    (4 <= length <= 13)%nat /\
    statusString !! 0%nat = Some ":"%char /\
    statusString !! 1%nat = Some " "%char /\
    statusString !! (length - 1)%nat = Some "010"%char.
Proof.
  intros Hrange.
  destruct (LinuxFail_loop_frame 9 29 (lit ": " ++ replicate 30 NUL) 2
              (- status)) as (buf & len & Hl & Hlen & Hkeep & Hsize).
  { lia. }
  { change (Z.of_nat 10) with 10. lia. }
  change (List.length (lit ": " ++ replicate 30 NUL)) with 32%nat in Hsize.
  exists (<[len := "010"%char]> buf), (S len).
  split; [| split; [| split; [| split; [| split]]]].
  - unfold LinuxFail. rewrite int_cast_id by lia. rewrite Hl.
    destruct (Nat.ltb_spec len 32) as [_ | Hge]; [| lia]. reflexivity.
  - rewrite length_insert. exact Hsize.
  - lia.
  - rewrite list_lookup_insert_ne by lia. rewrite Hkeep by lia. reflexivity.
  - rewrite list_lookup_insert_ne by lia. rewrite Hkeep by lia. reflexivity.
  - replace (S len - 1)%nat with len by lia.
    apply list_lookup_insert_eq. lia.
Qed.

Lemma LinuxFail_within_statusString_witness :
  exists statusString length,
    run (LinuxFail (lit "Cannot change root") 18 2147483647) [0; 0] =
      ([(SYS_write, [Int 2; Ptr (lit "Cannot change root"); Int 18]);
        (SYS_write, [Int 2; Ptr statusString; Int (Z.of_nat length)]);
        (SYS_exit, [Int 0])], Exited (Some 0)) /\
    List.length statusString = 32%nat /\
    (4 <= length <= 13)%nat /\
    statusString !! 0%nat = Some ":"%char /\
    statusString !! 1%nat = Some " "%char /\
    statusString !! (length - 1)%nat = Some "010"%char.
Proof.
  apply (LinuxFail_within_statusString (lit "Cannot change root") 18
           2147483647 0 0 []).
  lia.
Defined.

(** The digits the loop stores, read with the first as the least
    significant, are the number it was given. *)
Lemma LinuxFail_loop_value (k room : nat) (statusString : list ascii)
    (length : nat) (status : Z) :
  (k <= room)%nat ->
  0 <= status < 10 ^ Z.of_nat (S k) ->
  (length + S room <= List.length statusString)%nat ->
  exists statusString' length',
    LinuxFail_loop (S room) statusString length status =
      Some (statusString', length', 0) /\
    (length < length' <= length + S k)%nat /\
    little_endian (take (length' - length) (drop length statusString')) =
      status /\
    Forall is_digit (take (length' - length) (drop length statusString')) /\
    (forall j : nat, (j < length)%nat ->
       statusString' !! j = statusString !! j) /\
    List.length statusString' = List.length statusString.
Proof.
  revert room statusString length status.
  induction k as [| k IH]; intros room buf len s Hk Hs Hroom.
  - assert (Hs10 : 0 <= s < 10)
      by (change (10 ^ Z.of_nat 1) with 10 in Hs; exact Hs).
    destruct (LinuxFail_loop_digits 0 room buf len s Hk Hs Hroom)
      as (buf' & len' & Hl & Hlen & Hdig & Hkeep & Hsize).
    assert (len' = S len) as -> by lia.
    exists buf', (S len). split; [exact Hl |]. split; [lia |].
    specialize (Hdig 0%nat ltac:(lia)).
    rewrite Nat.add_0_r in Hdig.
    change (10 ^ Z.of_nat 0) with 1 in Hdig. rewrite Z.div_1_r in Hdig.
    rewrite Z.mod_small in Hdig by exact Hs10.
    replace (S len - len)%nat with 1%nat by lia.
    rewrite (drop_S _ _ _ Hdig), firstn_cons, firstn_O.
    cbn [little_endian].
    rewrite char_value_cast by (change (char_value "0") with 48; lia).
    split; [lia |]. split; [| split; assumption].
    constructor; [| constructor]. unfold is_digit.
    rewrite char_value_cast by (change (char_value "0") with 48; lia).
    change (char_value "0") with 48. change (char_value "9") with 57. lia.
  - destruct room as [| room]; [lia |].
    assert (Hq : Z.quot s 10 = s / 10) by (apply Z.quot_div_nonneg; lia).
    assert (Hr : Z.rem s 10 = s mod 10) by (apply Z.rem_mod_nonneg; lia).
    pose proof (Z.mod_pos_bound s 10 ltac:(lia)) as Hm.
    pose proof (Z.div_mod s 10 ltac:(lia)) as Hdm.
    set (c0 := char_cast (Z.rem s 10 + char_value "0")).
    assert (Hc0 : char_value c0 - char_value "0" = s mod 10).
    { unfold c0. rewrite Hr.
      rewrite char_value_cast by (change (char_value "0") with 48; lia).
      lia. }
    assert (Hd0 : is_digit c0).
    { unfold is_digit. change (char_value "0") with 48 in *.
      change (char_value "9") with 57. lia. }
    cbn [LinuxFail_loop]. fold c0.
    destruct (Z.eqb_spec (Z.quot s 10) 0) as [Hz | Hz].
    + rewrite Hz. eexists _, _. split; [reflexivity |]. split; [lia |].
      replace (S len - len)%nat with 1%nat by lia.
      assert (Hat : <[len := c0]> buf !! len = Some c0)
        by (apply list_lookup_insert_eq; lia).
      rewrite (drop_S _ _ _ Hat), firstn_cons, firstn_O.
      cbn [little_endian].
      split; [lia |]. split; [constructor; [exact Hd0 | constructor] |].
      split; [| apply length_insert].
      intros j Hj. apply list_lookup_insert_ne. lia.
    + destruct (IH room (<[len := c0]> buf) (S len) (Z.quot s 10))
        as (buf' & len' & Hl & Hlen & Hval & Hdig & Hkeep & Hsize).
      * lia.
      * rewrite Hq. split; [apply Z.div_pos; lia |].
        apply Z.div_lt_upper_bound; [lia |].
        rewrite (Nat2Z.inj_succ (S k)), Z.pow_succ_r in Hs by lia. lia.
      * rewrite length_insert. lia.
      * exists buf', len'. split; [exact Hl |]. split; [lia |].
        assert (Hat : buf' !! len = Some c0).
        { rewrite Hkeep by lia. apply list_lookup_insert_eq. lia. }
        replace (len' - len)%nat with (S (len' - S len)) by lia.
        rewrite (drop_S _ _ _ Hat), firstn_cons.
        cbn [little_endian]. rewrite Hval.
        split; [lia |]. split; [constructor; assumption |].
        split.
        -- intros j Hj. rewrite Hkeep by lia.
           apply list_lookup_insert_ne. lia.
        -- rewrite Hsize. apply length_insert.
Qed.

(** X10. For a negative status (other than the least [int]) the line
    [LinuxFail] writes to descriptor 2 is ": ", then between one and ten
    decimal digits, then the newline; and the digits, read with the first
    as the least significant, give back the negated status. *)
Theorem LinuxFail_status_line
    (message : list ascii) (messageSize status r1 r2 : Z)
    (answers : list Z) :
  - 2 ^ 31 < status < 0 ->
  exists statusString n,
    (run (LinuxFail message messageSize status) (r1 :: r2 :: answers)).1
      !! 1%nat =
      Some (SYS_write,
            [Int 2; Ptr statusString; Int (Z.of_nat (2 + n + 1))]) /\
    (1 <= n <= 10)%nat /\
    take 2 statusString = lit ": " /\
    Forall is_digit (take n (drop 2 statusString)) /\
    little_endian (take n (drop 2 statusString)) = - status /\
    statusString !! (2 + n)%nat = Some "010"%char.
Proof.
  intros Hs.
  destruct (LinuxFail_loop_value 9 29 (lit ": " ++ replicate 30 NUL) 2
              (- status))
    as (buf & len & Hl & Hlen & Hval & Hdig & Hkeep & Hsize).
  { lia. }
  { change (Z.of_nat 10) with 10. lia. }
  { simpl. lia. }
  change (List.length (lit ": " ++ replicate 30 NUL)) with 32%nat in Hsize.
  exists (<[len := "010"%char]> buf), (len - 2)%nat.
  replace (2 + (len - 2))%nat with len by lia.
  assert (Hsame : take (len - 2) (drop 2 (<[len := "010"%char]> buf)) =
                  take (len - 2) (drop 2 buf)).
  { rewrite drop_insert_ge by lia. apply take_insert_ge. lia. }
  split; [| split; [lia | split; [| split; [| split]]]].
  - unfold LinuxFail. rewrite int_cast_id by lia. rewrite Hl.
    destruct (Nat.ltb_spec len 32) as [_ | Hge]; [| lia].
    replace (len + 1)%nat with (S len) by lia. reflexivity.
  - rewrite take_insert_ge by lia.
    apply list_eq. intros [| [| i]].
    + rewrite lookup_take_lt by lia. rewrite Hkeep by lia. reflexivity.
    + rewrite lookup_take_lt by lia. rewrite Hkeep by lia. reflexivity.
    + rewrite lookup_take_ge by lia. reflexivity.
  - rewrite Hsame. exact Hdig.
  - rewrite Hsame. exact Hval.
  - apply list_lookup_insert_eq. lia.
Qed.

Lemma LinuxFail_status_line_witness :
  exists statusString n,
    (run (LinuxFail (lit "Cannot change root") 18 (-13)) [0; 0]).1
      !! 1%nat =
      Some (SYS_write,
            [Int 2; Ptr statusString; Int (Z.of_nat (2 + n + 1))]) /\
    (1 <= n <= 10)%nat /\
    take 2 statusString = lit ": " /\
    Forall is_digit (take n (drop 2 statusString)) /\
    little_endian (take n (drop 2 statusString)) = - -13 /\
    statusString !! (2 + n)%nat = Some "010"%char.
Proof.
  apply (LinuxFail_status_line (lit "Cannot change root") 18 (-13) 0 0 []).
  lia.
Defined.

(** *** The course of [_start] *)

Section Course.
Variable MA_NAME_MAX : nat.
Variable MA_REALITY_MINOR : Z.
Variable MA_IOCTL_SET_PROVIDER : Z.

Local Abbreviation start :=
  (_start MA_NAME_MAX MA_REALITY_MINOR MA_IOCTL_SET_PROVIDER).

Lemma step_passed_0 (step : nat) (r : Z) :
  step <> 1%nat -> step_failed step r = false -> (int_cast r <? 0) = false.
Proof.
  intros Hne H. destruct step as [| [| step]]; [exact H | lia | exact H].
Qed.

(** X11. When none of the six steps fails, [_start] makes ten system
    calls in this order: the greeting, mknod, open, chroot, chdir, the
    ioctl on the descriptor that open returned with the provider name,
    then the two Monix calls, the closing message and [SYS_exit] with
    0.  An existing device (-EEXIST from mknod) is on this path. *)
Theorem start_all_steps_pass
    (r0 r1 r2 r3 r4 r5 r6 r7 r8 : Z) (answers : list Z) :
  step_failed 0 r0 = false ->
  step_failed 1 r1 = false ->
  step_failed 2 r2 = false ->
  step_failed 3 r3 = false ->
  step_failed 4 r4 = false ->
  step_failed 5 r5 = false ->
  run start (r0 :: r1 :: r2 :: r3 :: r4 :: r5 :: r6 :: r7 :: r8 :: answers) =
    ([(SYS_write,
       [Int 1;
        Ptr (lit ("Bootstrapping the container with Monix loader..."
                  ++ LF));
        Int 49]);
      (SYS_mknod,
       [Ptr (lit "/dev/reality"); Int 0x2124;
        Int (makedev 10 MA_REALITY_MINOR)]);
      (SYS_open, [Ptr (lit "/dev/reality"); Int O_RDONLY]);
      (SYS_chroot, [Ptr (lit "/rootfs/")]);
      (SYS_chdir, [Ptr (lit "/")]);
      (SYS_ioctl,
       [Int (int_cast r2); Int MA_IOCTL_SET_PROVIDER;
        Ptr (ProviderName MA_NAME_MAX)]);
      (SYSCALL_WRITE,
       [Int 1; Ptr (lit ("Hello, Monix World!" ++ LF)); Int 20]);
      (SYSCALL_EXIT, [Int (-1)]);
      (SYS_write,
       [Int 1; Ptr (lit ("Monix container exited." ++ LF)); Int 24]);
      (SYS_exit, [Int 0])],
     Exited (Some 0)).
Proof.
  intros H0 H1 H2 H3 H4 H5.
  apply step_passed_0 in H0, H2, H3, H4, H5; try discriminate.
  change ((int_cast r1 <? 0) && negb (int_cast r1 =? - EEXIST) = false)
    in H1.
  unfold _start.
  rewrite run_returns by reflexivity. cbv beta zeta. rewrite H0.
  rewrite run_returns by reflexivity. cbv beta zeta. rewrite H1.
  rewrite run_returns by reflexivity. cbv beta zeta. rewrite H2.
  rewrite run_returns by reflexivity. cbv beta zeta. rewrite H3.
  rewrite run_returns by reflexivity. cbv beta zeta. rewrite H4.
  rewrite run_returns by reflexivity. cbv beta zeta. rewrite H5.
  rewrite run_returns by reflexivity. cbv beta zeta.
  rewrite run_returns by reflexivity. cbv beta zeta.
  rewrite run_returns by reflexivity. cbv beta zeta.
  reflexivity.
Qed.

(** X12. The first step that fails ends the run.  If the steps before
    step [k] pass and step [k] fails, the system calls made are the steps
    up to [k] in their order, then the three calls of [LinuxFail] with the
    message of step [k], and the process exits: no later step is tried, so
    in particular the ioctl that changes the provider is not made unless
    the device was opened and the root and the directory were changed. *)
Theorem start_first_failure
    (k : nat) (before : list Z) (r r' r'' : Z) (answers : list Z) :
  (k < 6)%nat ->
  length before = k ->
  (forall i ri, before !! i = Some ri -> step_failed i ri = false) ->
  step_failed k r = true ->
  exists statusString n,
    let out := run start (before ++ r :: r' :: r'' :: answers) in
    fst <$> take (S k) out.1 =
      take (S k) [SYS_write; SYS_mknod; SYS_open; SYS_chroot; SYS_chdir;
                  SYS_ioctl] /\
    drop (S k) out.1 =
      [(SYS_write,
        [Int 2; Ptr (lit (failure_message k));
         Int (sizeof (failure_message k) - 1)]);
       (SYS_write, [Int 2; Ptr statusString; Int n]);
       (SYS_exit, [Int 0])] /\
    out.2 = Exited (Some 0).
Proof.
  intros Hk Hlen Hpass Hfail. cbv zeta.
  assert (Hcases : k = 0%nat \/ k = 1%nat \/ k = 2%nat \/ k = 3%nat \/
                   k = 4%nat \/ k = 5%nat) by lia.
  destruct Hcases as [-> | [-> | [-> | [-> | [-> | ->]]]]];
    destruct before as [| a0 [| a1 [| a2 [| a3 [| a4 [| a5 before]]]]]];
    try discriminate Hlen.
  all: try pose proof (Hpass 0%nat _ eq_refl) as P0.
  all: try pose proof (Hpass 1%nat _ eq_refl) as P1.
  all: try pose proof (Hpass 2%nat _ eq_refl) as P2.
  all: try pose proof (Hpass 3%nat _ eq_refl) as P3.
  all: try pose proof (Hpass 4%nat _ eq_refl) as P4.
  all: clear Hpass Hlen Hk.
  all: repeat match goal with
       | H : step_failed 1 _ = false |- _ =>
           change (step_failed 1 ?a)
             with ((int_cast a <? 0) && negb (int_cast a =? - EEXIST)) in H
       | H : step_failed 1 _ = true |- _ =>
           change (step_failed 1 ?a)
             with ((int_cast a <? 0) && negb (int_cast a =? - EEXIST)) in H
       | H : step_failed _ _ = _ |- _ =>
           change (step_failed _ ?a) with (int_cast a <? 0) in H
       end.
  all: unfold _start; cbn [app].
  all: repeat (rewrite run_returns by reflexivity; cbv beta zeta;
               match goal with
               | H : _ = false |- _ => rewrite H; clear H
               end).
  all: rewrite run_returns by reflexivity; cbv beta zeta; rewrite Hfail.
  all: match goal with
       | |- context [LinuxFail ?m ?size ?s] =>
           destruct (run_LinuxFail m size s r' r'' answers)
             as (buf & len & Hrun); rewrite Hrun
       end.
  all: exists buf, len; repeat split.
Qed.

End Course.

Lemma start_all_steps_pass_witness :
  (run (_start 16 0 0) [49; -17; 3; 0; 0; 0; 20; 0; 24]).2 =
    Exited (Some 0).
Proof.
  rewrite (start_all_steps_pass 16 0 0 49 (-17) 3 0 0 0 20 0 24 []);
    reflexivity.
Defined.

Lemma start_first_failure_witness :
  exists statusString n,
    let out := run (_start 16 0 0) ([49; -17] ++ [-13; 5; 5]) in
    fst <$> take 3 out.1 = [SYS_write; SYS_mknod; SYS_open] /\
    drop 3 out.1 =
      [(SYS_write,
        [Int 2; Ptr (lit "Cannot open the reality device"); Int 30]);
       (SYS_write, [Int 2; Ptr statusString; Int n]);
       (SYS_exit, [Int 0])] /\
    out.2 = Exited (Some 0).
Proof.
  apply (start_first_failure 16 0 0 2 [49; -17] (-13) 5 5 []).
  - lia.
  - reflexivity.
  - intros [| [| i]] ri H; simpl in H; try discriminate;
      injection H as <-; reflexivity.
  - reflexivity.
Defined.

End LoaderFacts.
